(** * zerepy-discord: the reply agent and its connections

    A shallow embedding of
      - [src/agent.py]                          ([DiscordAgent]),
      - [src/connections/postgres.py]           ([DatabaseHandler]),
      - [src/connections/twitter_connection.py] ([TwitterConnection]),
    and the properties of the message-processing pipeline and of the
    action dispatch that follow from the code.

    Conventions.
    - A Python [str] is a Rocq [string]; one [ascii] stands for one
      character, so [String.length] is Python's [len] and
      [String.compare] is Python's comparison of strings (by code point,
      left to right).
    - Everything outside the process (the feed, the generation provider,
      the embedding service, the HTTP API, the database server's
      reachability, the clock) is an oracle of a [World].  Each oracle sees
      the trace of the calls made so far, so repeated calls with the same
      arguments may be answered differently.
    - Python exceptions are the [Raises] outcome of a small state-and-error
      monad; every external call is logged in the trace. *)

From Stdlib Require Import String Ascii List Bool.
From stdpp Require Import base option list gmap strings pretty sorting.
Import ListNotations.
Open Scope string_scope.

(* ===================================================================== *)
(** ** Python strings *)
(* ===================================================================== *)

Module PyStr.

(** The newline character of the ["\n"] literals. *)
Definition nl : string := String "010"%char "".

(** [needle in hay] on strings: [needle] occurs as a contiguous
    substring of [hay]. *)
Fixpoint py_in (needle hay : string) : bool :=
  String.prefix needle hay ||
  match hay with
  | EmptyString => false
  | String _ rest => py_in needle rest
  end.

(** [c.lower()] on one character: ['A'..'Z'] go to ['a'..'z'], every
    other character is kept.  Python also lowers letters outside ASCII;
    none of them lowers to a character that occurs in the needles this
    program searches for (["zerecall"], ["@zerecall"], ["<@zerecall"]),
    so the outcome of those searches is the same. *)
Definition lower_char (c : ascii) : ascii :=
  let n := nat_of_ascii c in
  if (65 <=? n)%nat && (n <=? 90)%nat then ascii_of_nat (n + 32) else c.

Fixpoint lower (s : string) : string :=
  match s with
  | EmptyString => EmptyString
  | String c rest => String (lower_char c) (lower rest)
  end.

(** [a > b] on strings. *)
Definition py_gt (a b : string) : bool := String.ltb b a.

(** Truthiness of a string: [bool(s)]. *)
Definition truthy (s : string) : bool :=
  match s with EmptyString => false | _ => true end.

(** [sep.join(parts)]. *)
Definition join (sep : string) (parts : list string) : string :=
  String.concat sep parts.

End PyStr.

(* ===================================================================== *)
(** ** Outcomes and exceptions *)
(* ===================================================================== *)

(** The exception classes the modelled code raises or lets through. *)
Inductive Exn : Type :=
| ValueError (msg : string)
| TypeError (msg : string)
| TwitterConnectionError (msg : string)
| TwitterConfigurationError (msg : string)
| TwitterAPIError (msg : string)
| UniqueViolation (constraint : string)
| OperationalError (msg : string)
| OtherException (msg : string).

Inductive Outcome (A : Type) : Type :=
| Returns (a : A)
| Raises (e : Exn).
Arguments Returns {A} a.
Arguments Raises {A} e.

(** *** The state-and-exception monad

    A computation takes the state and gives an outcome and the state it
    left; the state changes made before an exception is raised persist. *)

Module Eff.
Section WithState.
Context {St : Type}.

Definition M (A : Type) : Type := St -> Outcome A * St.

Definition ret {A} (a : A) : M A := fun s => (Returns a, s).

Definition raise {A} (e : Exn) : M A := fun s => (Raises e, s).

Definition bind {A B} (m : M A) (k : A -> M B) : M B :=
  fun s =>
    match m s with
    | (Returns a, s') => k a s'
    | (Raises e, s') => (Raises e, s')
    end.

(** [try: m  except Exception as e: handler e]. *)
Definition try_except {A} (m : M A) (handler : Exn -> M A) : M A :=
  fun s =>
    match m s with
    | (Returns a, s') => (Returns a, s')
    | (Raises e, s') => handler e s'
    end.

(** A computation without effects that may raise. *)
Definition lift {A} (o : Outcome A) : M A := fun s => (o, s).
End WithState.
Arguments M St A : clear implicits.
End Eff.

Notation "x <- m ;; k" := (Eff.bind m (fun x => k))
  (at level 100, m at next level, k at level 200, right associativity).

(* ===================================================================== *)
(** ** The reply agent: [agent.py] and [connections/postgres.py] *)
(* ===================================================================== *)

Module Agent.
Import PyStr Eff.

(** A fetched message: a dict read with [msg['id']],
    [msg.get('message', '')] and [msg.get('author', '')]. *)
Record Message : Type := {
  msg_id : string;
  msg_message : option string;
  msg_author : option string
}.

(** [d.get(key, '')]. *)
Definition get_or_empty (field : option string) : string :=
  match field with Some v => v | None => "" end.

(** The calls that leave the process, in the order they are made. *)
Inductive Event : Type :=
| EvReadMessages (channel : string) (count : nat)
| EvSimilarContent (query : string) (limit : nat)
| EvGenerateText (provider prompt system_prompt : string)
| EvReplyToMessage (channel message reply : string)
| EvSelectReplied (channel message : string)
| EvInsertReplied (channel message : string).

(** The outside world.  Every oracle receives the trace so far (newest
    call first).
    - [read_messages_action]: the feed's "read-messages" action; [None]
      is a Python [None] result.
    - [reply_to_message_action]: the feed's "reply-to-message" action;
      the boolean is the truthiness of its result.
    - [generate_text_action]: the provider's "generate-text" action.
    - [similarity_search]: the embedding call followed by the
      nearest-neighbour query of [get_similar_content]; each fetched row
      is given as the text that the f-string interpolation turns it
      into.
    - [db_fault]: [Some e] when connecting to the database or executing
      the statement raises [e] for a reason other than the table's
      contents.
    - [now]: the server's [CURRENT_TIMESTAMP]. *)
Record World : Type := {
  read_messages_action :
    list Event -> string -> nat -> Outcome (option (list Message));
  reply_to_message_action :
    list Event -> string -> string -> string -> Outcome bool;
  generate_text_action :
    list Event -> string -> string -> string -> Outcome string;
  similarity_search : list Event -> string -> nat -> Outcome (list string);
  db_fault : list Event -> option Exn;
  now : list Event -> nat
}.

(** The attributes of [DiscordAgent] that never change after
    [__init__]. *)
Record Config : Type := {
  name : string;
  bio : list string;
  channel_id : string;
  message_read_count : nat;
  model_provider : string
}.

(** The mutable state: the agent's watermark, the [message_tracking]
    table (primary key [(channel_id, message_id)], value [processed_at])
    and the trace of external calls (newest first). *)
Record State : Type := {
  last_processed_message_id : string;
  message_tracking : gmap (string * string) nat;
  trace : list Event
}.

Definition M : Type -> Type := Eff.M State.

Definition log (ev : Event) (s : State) : State :=
  {| last_processed_message_id := last_processed_message_id s;
     message_tracking := message_tracking s;
     trace := ev :: trace s |}.

(** An external call: the oracle answers from the trace so far, and the
    call is logged whether it returns or raises. *)
Definition external {A} (ev : Event) (answer : list Event -> Outcome A)
  : M A :=
  fun s => (answer (trace s), log ev s).

Definition set_last_processed_message_id (id : string) : M unit :=
  fun s =>
    (Returns tt,
     {| last_processed_message_id := id;
        message_tracking := message_tracking s;
        trace := trace s |}).

(** *** [DatabaseHandler] *)

(** [get_replied_messages]: [SELECT EXISTS(SELECT 1 FROM message_tracking
    WHERE channel_id = %s AND message_id = %s)]. *)
Definition get_replied_messages (w : World) (channel message : string)
  : M bool :=
  fun s =>
    let s' := log (EvSelectReplied channel message) s in
    match db_fault w (trace s) with
    | Some e => (Raises e, s')
    | None =>
        (Returns
           (bool_decide (is_Some (message_tracking s !! (channel, message)))),
         s')
    end.

(** [add_replied_message]: a plain [INSERT INTO message_tracking
    (channel_id, message_id) VALUES (%s, %s)] followed by a commit.  The
    table's primary key is [(channel_id, message_id)], so the statement
    raises a unique violation when the key is there, and nothing is
    committed. *)
Definition add_replied_message (w : World) (channel message : string)
  : M unit :=
  fun s =>
    let s' := log (EvInsertReplied channel message) s in
    match db_fault w (trace s) with
    | Some e => (Raises e, s')
    | None =>
        match message_tracking s !! (channel, message) with
        | Some _ => (Raises (UniqueViolation "message_tracking_pkey"), s')
        | None =>
            (Returns tt,
             {| last_processed_message_id := last_processed_message_id s;
                message_tracking :=
                  <[(channel, message) := now w (trace s)]>
                    (message_tracking s);
                trace := trace s' |})
        end
    end.

(** [get_similar_content]: the whole body is inside
    [try: ... except Exception: return []]. *)
Definition get_similar_content (w : World) (query : string) (limit : nat)
  : M (list string) :=
  try_except
    (external (EvSimilarContent query limit)
       (fun tr => similarity_search w tr query limit))
    (fun _ => ret []).

(** *** [DiscordAgent] *)

(** The task prompt of [_generate_reply]. *)
Definition task_prompt (cfg : Config) (original_message : string) : string :=
  "Generate a reply to this message: '" +:+ original_message +:+
  "'. You are " +:+ name cfg +:+
  ", an agent with technical expertise, so your responses may include code snippets or technical explanations based on the query and your context. Discord chats use markdown, so you can take advantage of creating rich text responses that include code blocks, lists, and more. Due to limitations in the Discord response length, your <think></think> logs together with your response will need to be 2000 or fewer in length.".

(** The [context] string built by the loop over [similar_content]. *)
Definition context_block (similar_content : list string) : string :=
  fold_left (fun context content => context +:+ "- " +:+ content +:+ nl)
    similar_content (nl +:+ "Relevant context:" +:+ nl).

(** The system prompt: the bio lines joined, and the context appended
    under [if similar_content:]. *)
Definition system_prompt_of (cfg : Config) (similar_content : list string)
  : string :=
  let system_prompt := join nl (bio cfg) in
  match similar_content with
  | [] => system_prompt
  | _ :: _ =>
      system_prompt +:+ nl +:+ "This is relevant context:" +:+ nl +:+
      context_block similar_content
  end.

Definition _generate_reply (cfg : Config) (w : World)
    (original_message : string) : M string :=
  let prompt := task_prompt cfg original_message in
  similar_content <- get_similar_content w original_message 5 ;;
  let system_prompt := system_prompt_of cfg similar_content in
  external (EvGenerateText (model_provider cfg) prompt system_prompt)
    (fun tr => generate_text_action w tr (model_provider cfg) prompt
                 system_prompt).

(** [read_messages]: [return messages if messages else []], and [[]] on
    any exception. *)
Definition read_messages (cfg : Config) (w : World) : M (list Message) :=
  try_except
    (messages <- external
                   (EvReadMessages (channel_id cfg) (message_read_count cfg))
                   (fun tr => read_messages_action w tr (channel_id cfg)
                                (message_read_count cfg)) ;;
     ret (match messages with
          | Some (m :: rest) => m :: rest
          | Some [] | None => []
          end))
    (fun _ => ret []).

(** [_get_latest_message_id]: [messages[0]['id']], or [None]. *)
Definition _get_latest_message_id (cfg : Config) (w : World)
  : M (option string) :=
  try_except
    (messages <- read_messages cfg w ;;
     ret (match messages with
          | m :: _ => Some (msg_id m)
          | [] => None
          end))
    (fun _ => ret None).

(** The part of [__init__] that sets the watermark: the latest id, and
    ["0"] under [if not self.last_processed_message_id]. *)
Definition init_last_processed_message_id (cfg : Config) (w : World)
  : M unit :=
  latest <- _get_latest_message_id cfg w ;;
  set_last_processed_message_id
    (match latest with
     | Some id => if truthy id then id else "0"
     | None => "0"
     end).

Definition reply_to_message (cfg : Config) (w : World)
    (message_id original_message : string) : M bool :=
  try_except
    (reply <- _generate_reply cfg w original_message ;;
     result <- external (EvReplyToMessage (channel_id cfg) message_id reply)
                 (fun tr => reply_to_message_action w tr (channel_id cfg)
                              message_id reply) ;;
     ret result)
    (fun _ => ret false).

(** The skip condition of the first loop of [process_new_messages]. *)
Definition is_bot_related (author msg_content : string) : bool :=
  py_in "APP" author ||
  py_in "zerecall" (lower author) ||
  py_in "@zerecall" (lower msg_content) ||
  existsb (fun ref => py_in ref (lower msg_content))
    ["@zerecall"; "<@zerecall"].

(** The first loop, over [reversed(messages)]: the watermark it compares
    with is the one at the start of the pass. *)
Fixpoint collect_new (watermark : string) (msgs : list Message)
  : list Message :=
  match msgs with
  | [] => []
  | msg :: rest =>
      if is_bot_related (get_or_empty (msg_author msg))
           (get_or_empty (msg_message msg))
      then collect_new watermark rest
      else if py_gt (msg_id msg) watermark
           then msg :: collect_new watermark rest
           else collect_new watermark rest
  end.

Definition new_messages (watermark : string) (messages : list Message)
  : list Message :=
  collect_new watermark (rev messages).

(** The body of the second loop, for one [message] of [new_messages]. *)
Definition reply_body (cfg : Config) (w : World) (message : Message)
  : M unit :=
  let msg_id := msg_id message in
  let msg_content := get_or_empty (msg_message message) in
  replied <- get_replied_messages w (channel_id cfg) msg_id ;;
  if negb replied
  then
    ok <- reply_to_message cfg w msg_id msg_content ;;
    if ok
    then _ <- add_replied_message w (channel_id cfg) msg_id ;;
         set_last_processed_message_id msg_id
    else ret tt
  else ret tt.

(** The second loop, [for message in new_messages]. *)
Fixpoint reply_loop (cfg : Config) (w : World) (msgs : list Message)
  : M unit :=
  match msgs with
  | [] => ret tt
  | message :: rest =>
      _ <- reply_body cfg w message ;;
      reply_loop cfg w rest
  end.

Definition process_new_messages (cfg : Config) (w : World) : M unit :=
  fun s =>
    if negb (truthy (last_processed_message_id s)) then ret tt s
    else
      (messages <- read_messages cfg w ;;
       match messages with
       | [] => ret tt
       | _ :: _ =>
           reply_loop cfg w
             (new_messages (last_processed_message_id s) messages)
       end) s.

(** One iteration of [loop]: an exception of the pass is caught and
    logged by the loop, the state it left is kept. *)
Definition tick (cfg : Config) (w : World) (s : State) : State :=
  snd (process_new_messages cfg w s).

Fixpoint ticks (cfg : Config) (w : World) (n : nat) (s : State) : State :=
  match n with
  | O => s
  | S n' => ticks cfg w n' (tick cfg w s)
  end.

(** The replies sent in a trace, oldest first: the message ids of the
    "reply-to-message" calls. *)
Definition replies_sent (tr : list Event) : list string :=
  rev (omap (fun ev => match ev with
                       | EvReplyToMessage _ message _ => Some message
                       | _ => None
                       end) tr).

End Agent.

(* ===================================================================== *)
(** ** The Twitter connection: [connections/twitter_connection.py] *)
(* ===================================================================== *)

Module Twitter.
Import Eff.

(** Python values as they reach the connection: keyword arguments, request
    payloads and decoded response bodies.  A dict is an association list
    in insertion order with distinct keys.  Floating-point numbers are
    left out. *)
#[warnings="-register-all"] Inductive PyVal : Type :=
| VNone
| VBool (b : bool)
| VInt (z : Z)
| VStr (s : string)
| VList (items : list PyVal)
| VDict (entries : list (string * PyVal)).

(** [bool(v)]. *)
Definition truthy (v : PyVal) : bool :=
  match v with
  | VNone => false
  | VBool b => b
  | VInt z => negb (z =? 0)%Z
  | VStr s => PyStr.truthy s
  | VList items => match items with [] => false | _ => true end
  | VDict entries => match entries with [] => false | _ => true end
  end.

(** [len(v)]; a [TypeError] on a value without a length. *)
Definition py_len (v : PyVal) : Outcome nat :=
  match v with
  | VStr s => Returns (String.length s)
  | VList items => Returns (length items)
  | VDict entries => Returns (length entries)
  | VNone | VBool _ | VInt _ => Raises (TypeError "object has no len()")
  end.

(** [min(v, 100)]: the first of the smallest; a bool compares as 0 or 1;
    a [TypeError] on a value that does not compare with an int. *)
Definition py_min_100 (v : PyVal) : Outcome PyVal :=
  match v with
  | VInt z => Returns (if (100 <? z)%Z then VInt 100 else VInt z)
  | VBool b => Returns (VBool b)
  | VNone | VStr _ | VList _ | VDict _ =>
      Raises (TypeError "'<' not supported between instances")
  end.

(** [assoc key entries]: the value under [key] in a dict. *)
Fixpoint assoc (key : string) (entries : list (string * PyVal))
  : option PyVal :=
  match entries with
  | [] => None
  | (k, v) :: rest => if String.eqb k key then Some v else assoc key rest
  end.

(** [v.get(key, default)]; only a dict has [get]. *)
Definition py_get (v : PyVal) (key : string) (default : PyVal)
  : Outcome PyVal :=
  match v with
  | VDict entries =>
      Returns (match assoc key entries with Some x => x | None => default end)
  | _ => Raises (OtherException "AttributeError: object has no attribute 'get'")
  end.

(** [v[key]] with a string key. *)
Definition py_getitem (v : PyVal) (key : string) : Outcome PyVal :=
  match v with
  | VDict entries =>
      match assoc key entries with
      | Some x => Returns x
      | None => Raises (OtherException ("KeyError: '" +:+ key +:+ "'"))
      end
  | VList _ | VStr _ => Raises (TypeError "indices must be integers")
  | VNone | VBool _ | VInt _ => Raises (TypeError "object is not subscriptable")
  end.

(** The items a [for] loop or a comprehension visits. *)
Definition py_iter (v : PyVal) : Outcome (list PyVal) :=
  match v with
  | VList items => Returns items
  | VDict entries => Returns (map (fun kv => VStr (fst kv)) entries)
  | VStr s => Returns (map (fun c => VStr (String c "")) (list_ascii_of_string s))
  | VNone | VBool _ | VInt _ => Raises (TypeError "object is not iterable")
  end.

(** Keys of a dict built by the program: a hashable value, compared with
    [==] (so [True == 1] and [False == 0]). *)
Definition hashable (v : PyVal) : bool :=
  match v with
  | VList _ | VDict _ => false
  | _ => true
  end.

Definition key_eqb (a b : PyVal) : bool :=
  match a, b with
  | VNone, VNone => true
  | VStr x, VStr y => String.eqb x y
  | VInt x, VInt y => (x =? y)%Z
  | VBool x, VBool y => Bool.eqb x y
  | VBool x, VInt y | VInt y, VBool x => ((if x then 1 else 0) =? y)%Z
  | _, _ => false
  end.

(** [d[key] = value] on such a dict: a key that is there keeps its place. *)
Fixpoint key_insert {V} (key : PyVal) (value : V) (d : list (PyVal * V))
  : list (PyVal * V) :=
  match d with
  | [] => [(key, value)]
  | (k, v) :: rest =>
      if key_eqb k key then (k, value) :: rest
      else (k, v) :: key_insert key value rest
  end.

Fixpoint key_lookup {V} (key : PyVal) (d : list (PyVal * V)) : option V :=
  match d with
  | [] => None
  | (k, v) :: rest => if key_eqb k key then Some v else key_lookup key rest
  end.

(** [d.update({key: value})] on a dict with string keys. *)
Fixpoint str_insert (key : string) (value : PyVal)
    (entries : list (string * PyVal)) : list (string * PyVal) :=
  match entries with
  | [] => [(key, value)]
  | (k, v) :: rest =>
      if String.eqb k key then (k, value) :: rest
      else (k, v) :: str_insert key value rest
  end.

(** The HTTP verbs [_make_request] is called with (['get'], ['post']). *)
Inductive Method : Type := GET | POST.

(** The keyword argument that carries the payload of a request. *)
Inductive Payload : Type :=
| Params (params : PyVal)
| Json (json : PyVal).

Record Response : Type := {
  status_code : nat;
  text : string;
  json : Outcome PyVal
}.

Inductive Event : Type :=
| EvRequest (method : Method) (url : string) (payload : Payload).

(** The outside world: the process environment read by [os.getenv], and
    the HTTP API behind the OAuth session. *)
Record World : Type := {
  environ : gmap string string;
  http : list Event -> Method -> string -> Payload -> Outcome Response
}.

(** The [OAuth1Session] arguments. *)
Record OAuthSession : Type := {
  client_key : string;
  client_secret : string;
  resource_owner_key : string;
  resource_owner_secret : string
}.

Record State : Type := {
  _oauth_session : option OAuthSession;
  trace : list Event
}.

Definition M : Type -> Type := Eff.M State.

(** [str(e)]. *)
Definition exn_str (e : Exn) : string :=
  match e with
  | ValueError msg | TypeError msg | TwitterConnectionError msg
  | TwitterConfigurationError msg | TwitterAPIError msg
  | UniqueViolation msg | OperationalError msg | OtherException msg => msg
  end.

Definition required_vars : list (string * string) :=
  [ ("TWITTER_CONSUMER_KEY", "consumer key");
    ("TWITTER_CONSUMER_SECRET", "consumer secret");
    ("TWITTER_ACCESS_TOKEN", "access token");
    ("TWITTER_ACCESS_TOKEN_SECRET", "access token secret");
    ("TWITTER_USER_ID", "user ID") ].

(** [os.getenv(env_var)] followed by [if not value]. *)
Definition getenv_missing (w : World) (env_var : string) : bool :=
  match environ w !! env_var with
  | Some value => negb (PyStr.truthy value)
  | None => true
  end.

(** [credentials[env_var]] once every variable is known to be there. *)
Definition credential (w : World) (env_var : string) : string :=
  default "" (environ w !! env_var).

(** [_get_credentials]; the result is read with [credential]. *)
Definition _get_credentials (w : World) : M unit :=
  let missing :=
    omap (fun '(env_var, description) =>
            if getenv_missing w env_var then Some description else None)
      required_vars in
  match missing with
  | [] => ret tt
  | _ :: _ =>
      raise (TwitterConfigurationError
               ("Missing Twitter credentials: " +:+ PyStr.join ", " missing))
  end.

Definition _get_oauth (w : World) : M OAuthSession :=
  fun s =>
    match _oauth_session s with
    | Some session => (Returns session, s)
    | None =>
        (_ <- _get_credentials w ;;
         let session :=
           {| client_key := credential w "TWITTER_CONSUMER_KEY";
              client_secret := credential w "TWITTER_CONSUMER_SECRET";
              resource_owner_key := credential w "TWITTER_ACCESS_TOKEN";
              resource_owner_secret :=
                credential w "TWITTER_ACCESS_TOKEN_SECRET" |} in
         fun s' =>
           (Returns session,
            {| _oauth_session := Some session; trace := trace s' |})) s
    end.

(** [endpoint.lstrip('/')]. *)
Fixpoint lstrip_slash (endpoint : string) : string :=
  match endpoint with
  | String "/"%char rest => lstrip_slash rest
  | _ => endpoint
  end.

Definition expected_status (method : Method) : nat :=
  match method with POST => 201 | GET => 200 end.

(** The call [getattr(oauth, method.lower())(full_url, **kwargs)]. *)
Definition send (w : World) (method : Method) (url : string)
    (payload : Payload) : M Response :=
  fun s =>
    (http w (trace s) method url payload,
     {| _oauth_session := _oauth_session s;
        trace := EvRequest method url payload :: trace s |}).

Definition _make_request (w : World) (method : Method) (endpoint : string)
    (payload : Payload) : M PyVal :=
  try_except
    (_ <- _get_oauth w ;;
     let full_url := "https://api.twitter.com/2/" +:+ lstrip_slash endpoint in
     response <- send w method full_url payload ;;
     if negb (status_code response =? expected_status method)%nat
     then raise (TwitterAPIError
                   ("Request failed with status " +:+
                    pretty (status_code response) +:+ ": " +:+ text response))
     else lift (json response))
    (fun e =>
       match e with
       | TwitterAPIError _ => raise e
       | _ => raise (TwitterAPIError ("API request failed: " +:+ exn_str e))
       end).

(** [_validate_tweet_text]. *)
Definition _validate_tweet_text (text : PyVal) (context : string) : M unit :=
  if negb (truthy text)
  then raise (ValueError (context +:+ " text cannot be empty"))
  else
    n <- lift (py_len text) ;;
    if (280 <? n)%nat
    then raise (ValueError (context +:+ " exceeds 280 character limit"))
    else ret tt.

(** Binding the call [func( **kwargs)] to a signature
    [(self, p1, .., pn, **kwargs)]:
    a parameter without a default that is not among the keywords is a
    [TypeError], raised before the body runs. *)
Definition missing_arguments (fname : string) (missing : list string)
  : string :=
  match missing with
  | [p] => fname +:+ "() missing 1 required positional argument: '" +:+
           p +:+ "'"
  | _ => fname +:+ "() missing " +:+ pretty (length missing) +:+
         " required positional arguments: " +:+
         PyStr.join " and " (map (fun p => "'" +:+ p +:+ "'") missing)
  end.

Definition bind_arguments (fname : string) (required : list string)
    (kwargs : gmap string PyVal) : M unit :=
  match filter (fun p => kwargs !! p = None) required with
  | [] => ret tt
  | missing => raise (TypeError (missing_arguments fname missing))
  end.

(** The value bound to a parameter, or its default. *)
Definition argument (kwargs : gmap string PyVal) (p : string)
    (default_value : PyVal) : PyVal :=
  default default_value (kwargs !! p).

(** *** The action handlers

    Each handler receives the keyword arguments of the call. *)

Definition post_tweet (w : World) (kwargs : gmap string PyVal) : M PyVal :=
  _ <- bind_arguments "post_tweet" ["message"] kwargs ;;
  let message := argument kwargs "message" VNone in
  _ <- _validate_tweet_text message "Tweet" ;;
  response <- _make_request w POST "tweets" (Json (VDict [("text", message)])) ;;
  ret response.

Definition reply_to_tweet (w : World) (kwargs : gmap string PyVal) : M PyVal :=
  _ <- bind_arguments "reply_to_tweet" ["tweet_id"; "message"] kwargs ;;
  let tweet_id := argument kwargs "tweet_id" VNone in
  let message := argument kwargs "message" VNone in
  _ <- _validate_tweet_text message "Reply" ;;
  response <- _make_request w POST "tweets"
                (Json (VDict [("text", message);
                              ("reply",
                               VDict [("in_reply_to_tweet_id", tweet_id)])])) ;;
  ret response.

Definition like_tweet (w : World) (kwargs : gmap string PyVal) : M PyVal :=
  _ <- bind_arguments "like_tweet" ["tweet_id"] kwargs ;;
  let tweet_id := argument kwargs "tweet_id" VNone in
  _ <- _get_credentials w ;;
  response <- _make_request w POST
                ("users/" +:+ credential w "TWITTER_USER_ID" +:+ "/likes")
                (Json (VDict [("tweet_id", tweet_id)])) ;;
  ret response.

Definition get_latest_tweets (w : World) (kwargs : gmap string PyVal)
  : M PyVal :=
  _ <- bind_arguments "get_latest_tweets" ["username"] kwargs ;;
  let count := argument kwargs "count" (VInt 10) in
  _ <- _get_credentials w ;;
  max_results <- lift (py_min_100 count) ;;
  let params :=
    VDict [("tweet.fields", VStr "created_at,public_metrics,text");
           ("max_results", max_results);
           ("exclude", VStr "retweets,replies")] in
  response <- _make_request w GET
                ("users/" +:+ credential w "TWITTER_USER_ID" +:+ "/tweets")
                (Params params) ;;
  tweets <- lift (py_get response "data" (VList [])) ;;
  _ <- lift (py_len tweets) ;;
  ret tweets.

(** The dict comprehension of [read_timeline]: user id to name and
    username. *)
Fixpoint build_user_dict (users : list PyVal)
    (user_dict : list (PyVal * (PyVal * PyVal)))
  : Outcome (list (PyVal * (PyVal * PyVal))) :=
  match users with
  | [] => Returns user_dict
  | user :: rest =>
      match py_getitem user "id" with
      | Raises e => Raises e
      | Returns id =>
          match py_getitem user "name" with
          | Raises e => Raises e
          | Returns name =>
              match py_getitem user "username" with
              | Raises e => Raises e
              | Returns username =>
                  if hashable id
                  then build_user_dict rest
                         (key_insert id (name, username) user_dict)
                  else Raises (TypeError "unhashable type")
              end
          end
      end
  end.

(** The loop of [read_timeline] that adds the author's name and username
    to every tweet. *)
Fixpoint enrich_tweets (user_dict : list (PyVal * (PyVal * PyVal)))
    (tweets : list PyVal) : Outcome (list PyVal) :=
  match tweets with
  | [] => Returns []
  | tweet :: rest =>
      match py_getitem tweet "author_id" with
      | Raises e => Raises e
      | Returns author_id =>
          if hashable author_id
          then
            let author_info :=
              default (VStr "Unknown", VStr "Unknown")
                (key_lookup author_id user_dict) in
            let tweet' :=
              match tweet with
              | VDict entries =>
                  VDict (str_insert "author_username" (snd author_info)
                           (str_insert "author_name" (fst author_info)
                              entries))
              | _ => tweet
              end in
            match enrich_tweets user_dict rest with
            | Raises e => Raises e
            | Returns rest' => Returns (tweet' :: rest')
            end
          else Raises (TypeError "unhashable type")
      end
  end.

(** What [read_timeline] makes of the response.  The tweets are updated in
    place, so a list of tweets comes back updated; a string or a dict of
    tweets can only be empty here, and comes back as it is. *)
Definition timeline_of_response (response : PyVal) : Outcome PyVal :=
  match py_get response "data" (VList []) with
  | Raises e => Raises e
  | Returns tweets =>
      match py_get response "includes" (VDict []) with
      | Raises e => Raises e
      | Returns includes =>
          match py_get includes "users" (VList []) with
          | Raises e => Raises e
          | Returns user_info =>
              match py_iter user_info with
              | Raises e => Raises e
              | Returns users =>
                  match build_user_dict users [] with
                  | Raises e => Raises e
                  | Returns user_dict =>
                      match py_iter tweets with
                      | Raises e => Raises e
                      | Returns items =>
                          match enrich_tweets user_dict items with
                          | Raises e => Raises e
                          | Returns items' =>
                              match tweets with
                              | VList _ => Returns (VList items')
                              | _ => Returns tweets
                              end
                          end
                      end
                  end
              end
          end
      end
  end.

Definition read_timeline (w : World) (kwargs : gmap string PyVal) : M PyVal :=
  let count := argument kwargs "count" (VInt 10) in
  _ <- _get_credentials w ;;
  let params :=
    VDict [("tweet.fields", VStr "created_at,author_id,attachments");
           ("expansions", VStr "author_id");
           ("user.fields", VStr "name,username");
           ("max_results", count)] in
  response <- _make_request w GET
                ("users/" +:+ credential w "TWITTER_USER_ID" +:+
                 "/timelines/reverse_chronological")
                (Params params) ;;
  lift (timeline_of_response response).

(** An entry of [self.actions]: the handler and the declared arguments
    (name and type name). *)
Record Action : Type := {
  func : gmap string PyVal -> M PyVal;
  args : list (string * string)
}.

(** [self.actions] as [__init__] sets it. *)
Definition actions (w : World) : gmap string Action :=
  list_to_map
    [ ("get-latest-tweets",
       {| func := get_latest_tweets w;
          args := [("username", "str"); ("count", "int")] |});
      ("post-tweet",
       {| func := post_tweet w; args := [("message", "str")] |});
      ("read-timeline",
       {| func := read_timeline w; args := [("count", "int")] |});
      ("like-tweet",
       {| func := like_tweet w; args := [("tweet_id", "str")] |});
      ("reply-to-tweet",
       {| func := reply_to_tweet w;
          args := [("tweet_id", "str"); ("message", "str")] |}) ].

(** [perform_action], over any table of actions. *)
Definition perform_action_in (table : gmap string Action)
    (action_name : string) (kwargs : gmap string PyVal) : M PyVal :=
  match table !! action_name with
  | Some action => func action kwargs
  | None => raise (TwitterConnectionError ("Unknown action: " +:+ action_name))
  end.

Definition perform_action (w : World) (action_name : string)
    (kwargs : gmap string PyVal) : M PyVal :=
  perform_action_in (actions w) action_name kwargs.

(** The parameters of each handler that have no default value. *)
Definition required_parameters (action_name : string) : list string :=
  if String.eqb action_name "get-latest-tweets" then ["username"]
  else if String.eqb action_name "post-tweet" then ["message"]
  else if String.eqb action_name "like-tweet" then ["tweet_id"]
  else if String.eqb action_name "reply-to-tweet" then ["tweet_id"; "message"]
  else [].

(** The schema check the specification describes, for comparison with
    [perform_action]: every declared argument is there and has the declared
    primitive type. *)
Definition has_declared_type (type_name : string) (v : PyVal) : bool :=
  match v with
  | VStr _ => String.eqb type_name "str"
  | VInt _ => String.eqb type_name "int"
  | _ => false
  end.

Definition satisfies_schema (schema : list (string * string))
    (kwargs : gmap string PyVal) : bool :=
  forallb (fun '(p, type_name) =>
             match kwargs !! p with
             | Some v => has_declared_type type_name v
             | None => false
             end) schema.

End Twitter.

(* ===================================================================== *)
(** ** Predicates used in the statements *)
(* ===================================================================== *)

Module AgentSpec.
Import PyStr Eff Agent.

(** The feed accepts a reply to message [id] at some point: some
    "reply-to-message" call for it returns a truthy result. *)
Definition accepted (cfg : Config) (w : World) (id : string) : Prop :=
  exists tr reply,
    reply_to_message_action w tr (channel_id cfg) id reply = Returns true.


(** The DedupStore holds a record for [(channel, id)]. *)
Definition recorded (s : State) (channel id : string) : Prop :=
  is_Some (message_tracking s !! (channel, id)).

(** A reply to message [id] is among the events [evs]. *)
Definition replied_in (evs : list Event) (channel id : string) : Prop :=
  exists reply, EvReplyToMessage channel id reply ∈ evs.

(** The messages [read_messages] returns in state [s]. *)
Definition fetched (cfg : Config) (w : World) (s : State) : list Message :=
  match read_messages_action w (trace s) (channel_id cfg)
          (message_read_count cfg) with
  | Returns (Some messages) => messages
  | Returns None | Raises _ => []
  end.

(** The reply candidates of a pass that starts in state [s]. *)
Definition candidates (cfg : Config) (w : World) (s : State) : list Message :=
  new_messages (last_processed_message_id s) (fetched cfg w s).

(** The events logged between state [s] and a later state [s']. *)
Definition new_events (s s' : State) : list Event :=
  take (length (trace s') - length (trace s)) (trace s').

(** A restart of the process: the watermark is set anew, the table
    persists. *)
Definition restart (watermark : string) (s : State) : State :=
  {| last_processed_message_id := watermark;
     message_tracking := message_tracking s;
     trace := trace s |}.

(** The test of the first loop that a message passes to become a
    candidate. *)
Definition is_candidate (watermark : string) (msg : Message) : bool :=
  negb (is_bot_related (get_or_empty (msg_author msg))
          (get_or_empty (msg_message msg))) &&
  py_gt (msg_id msg) watermark.

(** What one pass, or a part of it, over the candidates [l] does to the
    state: the trace grows by [new]; the watermark stays or becomes the id
    of a candidate whose reply was accepted and recorded; records are
    kept; a new record comes with an accepted reply of this pass; and a
    reply goes only to a candidate without a record. *)
Record pass_effect (cfg : Config) (w : World) (l : list Message)
    (s s' : State) (new : list Event) : Prop := {
  pe_trace : trace s' = (new ++ trace s)%list;
  pe_watermark :
    last_processed_message_id s' = last_processed_message_id s \/
    exists m, m ∈ l /\ last_processed_message_id s' = msg_id m /\
              accepted cfg w (msg_id m);
  pe_kept :
    forall k v, message_tracking s !! k = Some v ->
                message_tracking s' !! k = Some v;
  pe_new_record :
    forall k, message_tracking s !! k = None ->
              is_Some (message_tracking s' !! k) ->
              exists id, k = (channel_id cfg, id) /\ accepted cfg w id /\
                         replied_in new (channel_id cfg) id;
  pe_replies :
    forall channel id reply, EvReplyToMessage channel id reply ∈ new ->
      channel = channel_id cfg /\ id ∈ map msg_id l /\
      message_tracking s !! (channel_id cfg, id) = None
}.

(** A Discord message id: the decimal numeral of a positive integer. *)
Definition is_digit (c : ascii) : bool :=
  let n := nat_of_ascii c in (48 <=? n)%nat && (n <=? 57)%nat.

Definition is_message_id (id : string) : bool :=
  match id with
  | EmptyString => false
  | String c rest =>
      is_digit c && negb (Ascii.eqb c "0") &&
      forallb is_digit (list_ascii_of_string rest)
  end.





(** The replies the feed accepted among the events [new] logged on top of
    the trace [base]: a "reply-to-message" call is answered from the trace
    before it, and is accepted when the answer is truthy. *)
Fixpoint accepted_replies (w : World) (new base : list Event)
  : list (string * string) :=
  match new with
  | [] => []
  | EvReplyToMessage channel id reply :: earlier =>
      match reply_to_message_action w (earlier ++ base)%list channel id reply
      with
      | Returns true => (channel, id) :: accepted_replies w earlier base
      | _ => accepted_replies w earlier base
      end
  | _ :: earlier => accepted_replies w earlier base
  end.

(** A reply to message [id] was accepted between the states [s] and
    [s']. *)
Definition accepted_during (cfg : Config) (w : World) (s s' : State)
    (id : string) : Prop :=
  (channel_id cfg, id) ∈ accepted_replies w (new_events s s') (trace s).

(** How the watermark moves between two states, with [new] the events in
    between: records are kept, and the watermark stays or becomes the id
    of a message among [P] whose reply was accepted in between, that had
    no record before and whose record was inserted in between. *)
Record move_effect (cfg : Config) (w : World) (P : Message -> Prop)
    (s s' : State) (new : list Event) : Prop := {
  me_trace : trace s' = (new ++ trace s)%list;
  me_kept :
    forall k v, message_tracking s !! k = Some v ->
                message_tracking s' !! k = Some v;
  me_move :
    last_processed_message_id s' = last_processed_message_id s \/
    exists m, P m /\ last_processed_message_id s' = msg_id m /\
              (channel_id cfg, msg_id m) ∈ accepted_replies w new (trace s) /\
              ~ recorded s (channel_id cfg) (msg_id m) /\
              recorded s' (channel_id cfg) (msg_id m) /\
              EvInsertReplied (channel_id cfg) (msg_id m) ∈ new
}.

End AgentSpec.

(* ===================================================================== *)
(** ** Concrete scenarios *)
(* ===================================================================== *)

Module Scenario.
Import PyStr Eff Agent AgentSpec.

Definition cfg0 : Config :=
  {| name := "zerecall";
     bio := ["You answer questions about the code base."; "You are concise."];
     channel_id := "100";
     message_read_count := 10;
     model_provider := "openai" |}.

(** A message from user [bob]. *)
Definition from_bob (id body : string) : Message :=
  {| msg_id := id; msg_message := Some body; msg_author := Some "bob" |}.

Definition m1 : Message := from_bob "1" "how do I install it?".
Definition m2 : Message := from_bob "2" "which version is current?".
Definition m3 : Message := from_bob "3" "first".
Definition m4 : Message := from_bob "4" "second".
Definition m5 : Message := from_bob "5" "third".

(** A world whose feed returns [messages], whose provider answers, whose
    context search finds nothing, whose database is reachable, and whose
    "reply-to-message" action reports what [accepts] says of the message
    id. *)
Definition world_of (messages : list Message) (accepts : string -> bool)
  : World :=
  {| read_messages_action := fun _ _ _ => Returns (Some messages);
     reply_to_message_action := fun _ _ id _ => Returns (accepts id);
     generate_text_action := fun _ _ _ _ => Returns "Here is how.";
     similarity_search := fun _ _ _ => Returns [];
     db_fault := fun _ => None;
     now := fun tr => length tr |}.


(** The reply to ["2"] fails and the reply to ["1"] succeeds. *)
Definition w_last_fails : World :=
  world_of [m2; m1] (fun id => String.eqb id "1").

(** Every reply succeeds. *)
Definition w_all_succeed : World := world_of [m2; m1] (fun _ => true).

(** The channel is empty. *)
Definition w_empty_channel : World := world_of [] (fun _ => true).

(** The feed is down. *)
Definition w_feed_down : World :=
  {| read_messages_action := fun _ _ _ => Raises (OtherException "timeout");
     reply_to_message_action := fun _ _ _ _ => Returns true;
     generate_text_action := fun _ _ _ _ => Returns "Here is how.";
     similarity_search := fun _ _ _ => Returns [];
     db_fault := fun _ => None;
     now := fun tr => length tr |}.

(** The embedding service is down. *)
Definition w_search_down : World :=
  {| read_messages_action := fun _ _ _ => Returns (Some [m2; m1]);
     reply_to_message_action := fun _ _ _ _ => Returns true;
     generate_text_action := fun _ _ _ _ => Returns "Here is how.";
     similarity_search := fun _ _ _ => Raises (OtherException "no API key");
     db_fault := fun _ => None;
     now := fun tr => length tr |}.

(** The state after startup on an empty channel. *)
Definition s0 : State :=
  {| last_processed_message_id := "0";
     message_tracking := ∅;
     trace := [] |}.

(** As [s0], with a record for message ["1"]. *)
Definition s_recorded : State :=
  {| last_processed_message_id := "0";
     message_tracking := {[ ("100", "1") := 7 ]};
     trace := [] |}.

(** A message of another user that names the agent without mentioning
    it. *)
Definition m_names_agent : Message := from_bob "5" "zerecall rocks".





End Scenario.

Module TwitterScenario.
Import Twitter.

(** All five credentials are set. *)
Definition env_configured : gmap string string :=
  list_to_map
    [ ("TWITTER_CONSUMER_KEY", "ck");
      ("TWITTER_CONSUMER_SECRET", "cs");
      ("TWITTER_ACCESS_TOKEN", "at");
      ("TWITTER_ACCESS_TOKEN_SECRET", "ats");
      ("TWITTER_USER_ID", "42") ].

Definition created : Response :=
  {| status_code := 201;
     text := "{}";
     json := Returns (VDict [("data", VDict [("id", VStr "7")])]) |}.

(** The API answers every request with 201 and a small body. *)
Definition w_online : World :=
  {| environ := env_configured; http := fun _ _ _ _ => Returns created |}.

Definition st0 : State := {| _oauth_session := None; trace := [] |}.

(** [tweet_id=5]: an int where the action declares a str. *)
Definition kwargs_int_id : gmap string PyVal := {[ "tweet_id" := VInt 5 ]}.

(** [bad_arg=1]: none of the declared arguments. *)
Definition kwargs_bad_arg : gmap string PyVal := {[ "bad_arg" := VInt 1 ]}.

Definition kwargs_message (text : string) : gmap string PyVal :=
  {[ "message" := VStr text ]}.

(** The session [_get_oauth] creates from [env_configured]. *)
Definition session0 : OAuthSession :=
  {| client_key := "ck";
     client_secret := "cs";
     resource_owner_key := "at";
     resource_owner_secret := "ats" |}.

End TwitterScenario.

(* ===================================================================== *)
(** ** Further parts of the agent and of the Twitter connection *)
(* ===================================================================== *)

Module AgentMore.
Import PyStr Eff Agent AgentSpec.

(** [REQUIRED_FIELDS]. *)
Definition REQUIRED_FIELDS : list string :=
  ["name"; "bio"; "traits"; "examples"; "loop_delay"; "config"].

(** [[field for field in REQUIRED_FIELDS if field not in agent_dict]]. *)
Definition missing_fields {V} (agent_dict : gmap string V) : list string :=
  filter (fun field => agent_dict !! field = None) REQUIRED_FIELDS.

(** The check of [__init__] on the loaded agent file: a [KeyError] that
    names the missing fields. *)
Definition check_required_fields {V} (agent_dict : gmap string V)
  : Outcome unit :=
  match missing_fields agent_dict with
  | [] => Returns tt
  | missing =>
      Raises (OtherException
                ("KeyError: Missing required fields: " +:+ join ", " missing))
  end.

(** [_setup_llm_provider], given what [get_model_providers] returned: the
    provider it selects. *)
Definition _setup_llm_provider (llm_providers : list string)
  : Outcome string :=
  match llm_providers with
  | [] => Raises (ValueError "No configured LLM provider found")
  | provider :: _ => Returns provider
  end.


(** The events that only read: the fetch and the dedup check. *)
Definition is_read_only (ev : Event) : bool :=
  match ev with
  | EvReadMessages _ _ | EvSelectReplied _ _ => true
  | _ => false
  end.

(** The database is down throughout. *)
Definition database_down (w : World) : Prop :=
  forall tr, db_fault w tr <> None.

(** A world as [world_of], whose database is down. *)
Definition w_database_down : World :=
  {| read_messages_action := fun _ _ _ => Returns (Some [Scenario.m2; Scenario.m1]);
     reply_to_message_action := fun _ _ _ _ => Returns true;
     generate_text_action := fun _ _ _ _ => Returns "Here is how.";
     similarity_search := fun _ _ _ => Returns [];
     db_fault := fun _ => Some (OperationalError "connection refused");
     now := fun tr => length tr |}.

(** A world whose database fails right after a reply has been sent: the
    dedup check passes and the insert fails. *)
Definition w_insert_fails : World :=
  {| read_messages_action := fun _ _ _ => Returns (Some [Scenario.m1]);
     reply_to_message_action := fun _ _ _ _ => Returns true;
     generate_text_action := fun _ _ _ _ => Returns "Here is how.";
     similarity_search := fun _ _ _ => Returns [];
     db_fault := fun tr =>
       match tr with
       | EvReplyToMessage _ _ _ :: _ =>
           Some (OperationalError "connection lost")
       | _ => None
       end;
     now := fun tr => length tr |}.


End AgentMore.

Module TwitterMore.
Import Eff Twitter.

(** [_get_authenticated_user_id]. *)
Definition _get_authenticated_user_id (w : World) : M PyVal :=
  try_except
    (response <- _make_request w GET "users/me"
                   (Params (VDict [("user.fields", VStr "id")])) ;;
     data <- lift (py_getitem response "data") ;;
     user_id <- lift (py_getitem data "id") ;;
     ret user_id)
    (fun _ => raise (TwitterConfigurationError "Could not retrieve user ID")).

(** Every variable of [required_vars] is set to a non-empty value. *)
Definition credentials_set (w : World) : Prop :=
  Forall (fun var => getenv_missing w (fst var) = false) required_vars.

(** The parameters of the request of [get_latest_tweets]. *)
Definition latest_tweets_params (max_results : PyVal) : PyVal :=
  VDict [("tweet.fields", VStr "created_at,public_metrics,text");
         ("max_results", max_results);
         ("exclude", VStr "retweets,replies")].

(** A tweet carries the two fields [read_timeline] adds. *)
Definition has_author_fields (tweet : PyVal) : Prop :=
  match tweet with
  | VDict entries =>
      is_Some (assoc "author_name" entries) /\
      is_Some (assoc "author_username" entries)
  | _ => False
  end.

(** No credential is set. *)
Definition w_unconfigured : World :=
  {| environ := ∅;
     http := fun _ _ _ _ => Returns TwitterScenario.created |}.

(** The API answers every request with status 200. *)
Definition w_status_200 : World :=
  {| environ := TwitterScenario.env_configured;
     http := fun _ _ _ _ =>
       Returns {| status_code := 200;
                  text := "ok";
                  json := Returns (VDict [("data", VDict [("id", VStr "42")])]) |} |}.

(** A state with a cached session. *)
Definition st_session : State :=
  {| _oauth_session := Some TwitterScenario.session0; trace := [] |}.

End TwitterMore.

(* ===================================================================== *)
(** * Properties of the reply agent *)
(* ===================================================================== *)

Module AgentProofs.
Import PyStr Eff Agent AgentSpec Scenario.

(** *** The order on ids *)

Lemma py_gt_lt (a b : string) : py_gt a b = true <-> String.compare b a = Lt.
Proof.
  unfold py_gt, String.ltb. destruct (String.compare b a); split; congruence.
Qed.

Lemma py_gt_le (a b : string) : py_gt a b = true -> (b ≤ a)%string.
Proof.
  intros H%py_gt_lt. unfold String.le, String.leb. rewrite H. exact I.
Qed.

Lemma py_gt_irrefl (a : string) : py_gt a a = false.
Proof.
  destruct (py_gt a a) eqn:H; [|reflexivity].
  apply py_gt_lt in H. pose proof (String.compare_antisym a a) as Ha.
  rewrite H in Ha. discriminate.
Qed.

Lemma not_py_gt_le (a b : string) : py_gt a b = false -> (a ≤ b)%string.
Proof.
  unfold py_gt, String.ltb, String.le, String.leb.
  rewrite (String.compare_antisym b a).
  destruct (String.compare a b); simpl; intros H; first [exact I | discriminate H].
Qed.

Lemma le_py_gt_false (a b : string) : (a ≤ b)%string -> py_gt a b = false.
Proof.
  intros Hab. destruct (py_gt a b) eqn:H; [|reflexivity].
  pose proof (py_gt_le _ _ H) as Hba.
  assert (a = b) as -> by (apply (anti_symm String.le); assumption).
  rewrite py_gt_irrefl in H. discriminate.
Qed.

(** *** The first loop is a filter *)

Lemma collect_new_filter (watermark : string) (msgs : list Message) :
  collect_new watermark msgs = List.filter (is_candidate watermark) msgs.
Proof.
  induction msgs as [|m rest IH]; simpl; [reflexivity|].
  unfold is_candidate at 1.
  destruct (is_bot_related _ _); simpl; [exact IH|].
  destruct (py_gt _ _); simpl; [f_equal|]; exact IH.
Qed.

Lemma elem_of_new_messages (watermark : string) (messages : list Message)
    (m : Message) :
  m ∈ new_messages watermark messages <->
  m ∈ messages /\ is_candidate watermark m = true.
Proof.
  unfold new_messages. rewrite collect_new_filter.
  rewrite !list_elem_of_In, filter_In, <- in_rev. reflexivity.
Qed.


(** *** Effects of the primitives *)

Lemma new_events_app (s s' : State) (new : list Event) :
  trace s' = (new ++ trace s)%list -> new_events s s' = new.
Proof.
  intros H. unfold new_events. rewrite H, length_app.
  replace (length new + length (trace s) - length (trace s)) with (length new)
    by lia.
  apply take_app_length.
Qed.

Lemma pass_effect_refl cfg w l s : pass_effect cfg w l s s [].
Proof.
  split; simpl; auto.
  - intros k Hn [v Hv]. congruence.
  - intros ? ? ? H. inversion H.
Qed.

(** An event that is no reply leaves everything but the trace. *)
Lemma pass_effect_log cfg w l s ev :
  (forall channel id reply, ev <> EvReplyToMessage channel id reply) ->
  pass_effect cfg w l s (log ev s) [ev].
Proof.
  intros Hev. split; simpl; auto.
  - intros k Hn [v Hv]. congruence.
  - intros ? ? ? H. apply list_elem_of_singleton in H. symmetry in H.
    destruct (Hev _ _ _ H).
Qed.

Lemma pass_effect_weaken cfg w l l' s s' new :
  l ⊆ l' -> pass_effect cfg w l s s' new -> pass_effect cfg w l' s s' new.
Proof.
  intros Hsub [Ht Hw Hk Hn Hr]. split; auto.
  - destruct Hw as [Hw|(m & Hm & Hw)]; [left; exact Hw|right].
    exists m. split; [apply Hsub, Hm|exact Hw].
  - intros channel id reply Hin. destruct (Hr _ _ _ Hin) as (Hc & Hid & Hnone).
    split; [exact Hc|split; [|exact Hnone]].
    apply list_elem_of_fmap in Hid as (m & -> & Hm).
    apply list_elem_of_fmap. exists m. split; [reflexivity|apply Hsub, Hm].
Qed.

Lemma pass_effect_trans cfg w l s s1 s2 new1 new2 :
  pass_effect cfg w l s s1 new1 ->
  pass_effect cfg w l s1 s2 new2 ->
  pass_effect cfg w l s s2 (new2 ++ new1).
Proof.
  intros [Ht1 Hw1 Hk1 Hn1 Hr1] [Ht2 Hw2 Hk2 Hn2 Hr2]. split.
  - rewrite Ht2, Ht1, app_assoc. reflexivity.
  - destruct Hw2 as [Hw2|Hw2]; [rewrite Hw2; exact Hw1|right; exact Hw2].
  - intros k v Hv. apply Hk2, Hk1, Hv.
  - intros k Hnone Hsome.
    destruct (message_tracking s1 !! k) as [v|] eqn:H1.
    + destruct (Hn1 k Hnone) as (id & Hk & Hacc & reply & Hin);
        [rewrite H1; eauto|].
      exists id. split; [exact Hk|split; [exact Hacc|]].
      exists reply. apply elem_of_app. right. exact Hin.
    + destruct (Hn2 k H1 Hsome) as (id & Hk & Hacc & reply & Hin).
      exists id. split; [exact Hk|split; [exact Hacc|]].
      exists reply. apply elem_of_app. left. exact Hin.
  - intros channel id reply Hin. apply elem_of_app in Hin as [Hin|Hin].
    + destruct (Hr2 _ _ _ Hin) as (Hc & Hid & Hnone).
      split; [exact Hc|split; [exact Hid|]].
      destruct (message_tracking s !! (channel_id cfg, id)) as [v|] eqn:H0;
        [|reflexivity].
      apply Hk1 in H0. congruence.
    + exact (Hr1 _ _ _ Hin).
Qed.


Lemma get_similar_content_eq w query limit s :
  get_similar_content w query limit s =
  (Returns (match similarity_search w (trace s) query limit with
            | Returns rows => rows
            | Raises _ => []
            end),
   log (EvSimilarContent query limit) s).
Proof.
  unfold get_similar_content, try_except, external, ret.
  destruct (similarity_search w (trace s) query limit); reflexivity.
Qed.

Lemma _generate_reply_eq cfg w original_message s :
  let similar_content :=
    match similarity_search w (trace s) original_message 5 with
    | Returns rows => rows
    | Raises _ => []
    end in
  let s1 := log (EvSimilarContent original_message 5) s in
  _generate_reply cfg w original_message s =
  (generate_text_action w (trace s1) (model_provider cfg)
     (task_prompt cfg original_message) (system_prompt_of cfg similar_content),
   log (EvGenerateText (model_provider cfg) (task_prompt cfg original_message)
          (system_prompt_of cfg similar_content)) s1).
Proof.
  intros similar_content s1. unfold _generate_reply, bind.
  rewrite get_similar_content_eq. reflexivity.
Qed.

(** [reply_to_message] never raises, leaves the watermark and the table,
    replies to no other message, and returns [True] only after an accepted
    reply. *)
Lemma reply_to_message_effect cfg w id content s :
  exists b s' new,
    reply_to_message cfg w id content s = (Returns b, s') /\
    last_processed_message_id s' = last_processed_message_id s /\
    message_tracking s' = message_tracking s /\
    trace s' = (new ++ trace s)%list /\
    (forall channel id' reply, EvReplyToMessage channel id' reply ∈ new ->
       channel = channel_id cfg /\ id' = id) /\
    (b = true -> accepted cfg w id /\ replied_in new (channel_id cfg) id).
Proof.
  unfold reply_to_message, try_except, bind.
  rewrite _generate_reply_eq. cbv zeta.
  destruct (generate_text_action _ _ _ _ _) as [reply|e]; simpl.
  - unfold external, bind, ret. simpl.
    match goal with
    | |- context [reply_to_message_action w ?tr ?c ?i ?r] =>
        destruct (reply_to_message_action w tr c i r) as [b|e] eqn:Hr
    end.
    + eexists b, _, [_; _; _]. repeat (split; [reflexivity|]). split.
      * intros channel id' reply' Hin.
        repeat (apply elem_of_cons in Hin as [Hin|Hin]; [inversion Hin; auto|]).
        inversion Hin.
      * intros ->. split; [eexists _, _; exact Hr|].
        eexists. apply list_elem_of_here.
    + eexists false, _, [_; _; _]. repeat (split; [reflexivity|]). split.
      * intros channel id' reply' Hin.
        repeat (apply elem_of_cons in Hin as [Hin|Hin]; [inversion Hin; auto|]).
        inversion Hin.
      * discriminate.
  - unfold ret. eexists false, _, [_; _]. repeat (split; [reflexivity|]). split.
    + intros channel id' reply' Hin.
      repeat (apply elem_of_cons in Hin as [Hin|Hin]; [inversion Hin; auto|]).
      inversion Hin.
    + discriminate.
Qed.


(** *** One iteration, the loop and the pass *)

Lemma reply_body_effect cfg w m s :
  exists new, pass_effect cfg w [m] s (snd (reply_body cfg w m s)) new.
Proof.
  unfold reply_body, bind, get_replied_messages.
  destruct (db_fault w (trace s)) as [e|] eqn:Hfault; simpl.
  { eexists. apply pass_effect_log. discriminate. }
  set (s1 := log (EvSelectReplied (channel_id cfg) (msg_id m)) s).
  assert (H01 : pass_effect cfg w [m] s s1 [EvSelectReplied (channel_id cfg) (msg_id m)])
    by (apply pass_effect_log; discriminate).
  destruct (message_tracking s !! (channel_id cfg, msg_id m)) as [v|] eqn:Hkey.
  { rewrite bool_decide_eq_true_2 by eauto. simpl. eexists. exact H01. }
  rewrite bool_decide_eq_false_2 by (intros [? ?]; congruence). simpl.
  destruct (reply_to_message_effect cfg w (msg_id m)
              (get_or_empty (msg_message m)) s1)
    as (b & s2 & new & Heq & Hw & Ht & Htr & Honly & Hacc).
  rewrite Heq.
  assert (H12 : pass_effect cfg w [m] s1 s2 new).
  { split; auto.
    - rewrite Ht. auto.
    - rewrite Ht. intros k Hn [v Hv]. congruence.
    - intros channel id reply Hin. destruct (Honly _ _ _ Hin) as [-> ->].
      split; [reflexivity|]. split; [apply list_elem_of_here|]. exact Hkey. }
  pose proof (pass_effect_trans _ _ _ _ _ _ _ _ H01 H12) as H02.
  destruct b; simpl; [|eexists; exact H02].
  destruct (Hacc eq_refl) as [Haccepted Hreplied].
  unfold add_replied_message.
  destruct (db_fault w (trace s2)) as [e|] eqn:Hfault2; simpl.
  { eexists. eapply pass_effect_trans; [exact H02|].
    apply pass_effect_log. discriminate. }
  rewrite Ht. simpl. rewrite Hkey. simpl.
  eexists (EvInsertReplied (channel_id cfg) (msg_id m) :: (new ++ _)).
  destruct H02 as [Ht02 Hw02 Hk02 Hn02 Hr02]. split; simpl.
  - rewrite Ht02. reflexivity.
  - right. exists m. split; [apply list_elem_of_here|]. split; [reflexivity|].
    exact Haccepted.
  - intros k v Hv. destruct (decide ((channel_id cfg, msg_id m) = k)) as [<-|Hne].
    + congruence.
    + rewrite lookup_insert_ne by exact Hne. exact Hv.
  - intros k Hnone Hsome.
    destruct (decide ((channel_id cfg, msg_id m) = k)) as [<-|Hne].
    + exists (msg_id m). split; [reflexivity|]. split; [exact Haccepted|].
      destruct Hreplied as [reply Hin]. exists reply.
      apply elem_of_cons. right. apply elem_of_app. left. exact Hin.
    + rewrite lookup_insert_ne in Hsome by exact Hne.
      destruct Hsome as [v Hv]. congruence.
  - intros channel id reply Hin.
    apply elem_of_cons in Hin as [Hin|Hin]; [discriminate|].
    exact (Hr02 _ _ _ Hin).
Qed.

Lemma reply_loop_effect cfg w l :
  forall s, exists new, pass_effect cfg w l s (snd (reply_loop cfg w l s)) new.
Proof.
  induction l as [|m rest IH]; intros s; simpl.
  - exists []. apply pass_effect_refl.
  - destruct (reply_body_effect cfg w m s) as [new1 H1].
    unfold bind. destruct (reply_body cfg w m s) as [[[]|e] s1]; simpl in *.
    + destruct (IH s1) as [new2 H2]. exists (new2 ++ new1)%list.
      eapply pass_effect_trans.
      * eapply pass_effect_weaken; [|exact H1].
        intros x Hx. apply list_elem_of_singleton in Hx as ->.
        apply list_elem_of_here.
      * eapply pass_effect_weaken; [|exact H2].
        intros x Hx. apply list_elem_of_further, Hx.
    + exists new1. eapply pass_effect_weaken; [|exact H1].
      intros x Hx. apply list_elem_of_singleton in Hx as ->.
      apply list_elem_of_here.
Qed.

Lemma read_messages_eq cfg w s :
  read_messages cfg w s =
  (Returns (fetched cfg w s),
   log (EvReadMessages (channel_id cfg) (message_read_count cfg)) s).
Proof.
  unfold read_messages, fetched, try_except, bind, external, ret.
  destruct (read_messages_action w (trace s) (channel_id cfg)
              (message_read_count cfg)) as [[[|m rest]|]|e]; reflexivity.
Qed.

(** The effect of one pass over its candidates. *)
Lemma process_new_messages_effect cfg w s :
  exists new, pass_effect cfg w (candidates cfg w s) s (tick cfg w s) new.
Proof.
  unfold tick, process_new_messages.
  destruct (negb (truthy (last_processed_message_id s))); simpl.
  { exists []. apply pass_effect_refl. }
  unfold bind. rewrite read_messages_eq.
  set (s1 := log _ s).
  assert (H01 : pass_effect cfg w (candidates cfg w s) s s1
                  [EvReadMessages (channel_id cfg) (message_read_count cfg)])
    by (apply pass_effect_log; discriminate).
  destruct (fetched cfg w s) as [|m rest] eqn:Hf; simpl.
  { eexists. exact H01. }
  destruct (reply_loop_effect cfg w
              (new_messages (last_processed_message_id s) (m :: rest)) s1)
    as [new H12].
  eexists. eapply pass_effect_trans; [exact H01|].
  unfold candidates. rewrite Hf. exact H12.
Qed.


Lemma candidate_above_watermark cfg w s m :
  m ∈ candidates cfg w s ->
  py_gt (msg_id m) (last_processed_message_id s) = true.
Proof.
  unfold candidates. intros [_ Hc]%elem_of_new_messages.
  unfold is_candidate in Hc. apply andb_true_iff in Hc as [_ Hgt]. exact Hgt.
Qed.

Lemma tick_watermark_le cfg w s :
  (last_processed_message_id s ≤
   last_processed_message_id (tick cfg w s))%string.
Proof.
  destruct (process_new_messages_effect cfg w s) as [new [_ Hw _ _ _]].
  destruct Hw as [->|(m & Hm & -> & _)]; [reflexivity|].
  apply py_gt_le, (candidate_above_watermark cfg w), Hm.
Qed.

Lemma ticks_watermark_le cfg w n :
  forall s,
    (last_processed_message_id s ≤
     last_processed_message_id (ticks cfg w n s))%string.
Proof.
  induction n as [|n IH]; intros s; simpl; [reflexivity|].
  etrans; [apply (tick_watermark_le cfg w)|apply IH].
Qed.

Lemma no_reply_when_recorded cfg w s id :
  recorded s (channel_id cfg) id ->
  ~ replied_in (new_events s (tick cfg w s)) (channel_id cfg) id.
Proof.
  intros [v Hv] [reply Hin].
  destruct (process_new_messages_effect cfg w s) as [new [Ht _ _ _ Hr]].
  rewrite (new_events_app _ _ _ Ht) in Hin.
  destruct (Hr _ _ _ Hin) as (_ & _ & Hnone). congruence.
Qed.

(** *** Accepted replies and the moves of the watermark *)

Lemma accepted_replies_app w new2 new1 base :
  accepted_replies w (new2 ++ new1) base =
  (accepted_replies w new2 (new1 ++ base) ++ accepted_replies w new1 base)%list.
Proof.
  induction new2 as [|ev new2 IH]; [reflexivity|].
  change ((ev :: new2) ++ new1)%list with (ev :: (new2 ++ new1))%list.
  destruct ev; simpl; try exact IH.
  rewrite <- app_assoc.
  destruct (reply_to_message_action w _ channel message reply) as [[|]|e];
    simpl; rewrite IH; reflexivity.
Qed.

Lemma move_effect_refl cfg w P s : move_effect cfg w P s s [].
Proof. split; simpl; auto. Qed.

(** An event that is logged and changes nothing else. *)
Lemma move_effect_log cfg w P s ev : move_effect cfg w P s (log ev s) [ev].
Proof. split; simpl; auto. Qed.

Lemma move_effect_weaken cfg w (P P' : Message -> Prop) s s' new :
  (forall m, P m -> P' m) ->
  move_effect cfg w P s s' new -> move_effect cfg w P' s s' new.
Proof.
  intros Himp [Ht Hk Hm]. split; auto.
  destruct Hm as [Hm|(m & HP & Hm)]; [left; exact Hm|right].
  exists m. split; [apply Himp, HP|exact Hm].
Qed.

Lemma move_effect_trans cfg w P s s1 s2 new1 new2 :
  move_effect cfg w P s s1 new1 ->
  move_effect cfg w P s1 s2 new2 ->
  move_effect cfg w P s s2 (new2 ++ new1).
Proof.
  intros [Ht1 Hk1 Hm1] [Ht2 Hk2 Hm2]. split.
  - rewrite Ht2, Ht1, app_assoc. reflexivity.
  - intros k v Hv. apply Hk2, Hk1, Hv.
  - destruct Hm2 as [Hm2|(m & HP & Hw & Hacc & Hnot & Hrec & Hins)].
    + rewrite Hm2.
      destruct Hm1 as [Hm1|(m & HP & Hw & Hacc & Hnot & Hrec & Hins)];
        [left; exact Hm1|right].
      exists m. split; [exact HP|]. split; [exact Hw|]. split; [|split; [|split]].
      * rewrite accepted_replies_app. apply elem_of_app. right. exact Hacc.
      * exact Hnot.
      * destruct Hrec as [v Hv]. exists v. apply Hk2, Hv.
      * apply elem_of_app. right. exact Hins.
    + right. exists m. split; [exact HP|]. split; [exact Hw|].
      split; [|split; [|split]].
      * rewrite accepted_replies_app. apply elem_of_app. left.
        rewrite <- Ht1. exact Hacc.
      * intros [v Hv]. apply Hnot. exists v. apply Hk1, Hv.
      * exact Hrec.
      * apply elem_of_app. left. exact Hins.
Qed.

(** [reply_to_message] returns [True] only when the feed accepted the
    reply it sent. *)
Lemma reply_to_message_accepted cfg w id content s :
  exists b s' new,
    reply_to_message cfg w id content s = (Returns b, s') /\
    last_processed_message_id s' = last_processed_message_id s /\
    message_tracking s' = message_tracking s /\
    trace s' = (new ++ trace s)%list /\
    (forall channel id', EvInsertReplied channel id' ∉ new) /\
    (b = true ->
     (channel_id cfg, id) ∈ accepted_replies w new (trace s)).
Proof.
  unfold reply_to_message, try_except, bind.
  rewrite _generate_reply_eq. cbv zeta.
  destruct (generate_text_action _ _ _ _ _) as [reply|e]; simpl.
  - unfold external, bind, ret. simpl.
    match goal with
    | |- context [reply_to_message_action w ?tr ?c ?i ?r] =>
        destruct (reply_to_message_action w tr c i r) as [b|e] eqn:Hr
    end.
    + eexists b, _, [_; _; _]. repeat (split; [reflexivity|]). split.
      * intros channel id' Hin.
        repeat (apply elem_of_cons in Hin as [Hin|Hin]; [discriminate|]).
        inversion Hin.
      * intros ->. simpl. simpl in Hr. rewrite Hr. apply list_elem_of_here.
    + eexists false, _, [_; _; _]. repeat (split; [reflexivity|]). split.
      * intros channel id' Hin.
        repeat (apply elem_of_cons in Hin as [Hin|Hin]; [discriminate|]).
        inversion Hin.
      * discriminate.
  - unfold ret. eexists false, _, [_; _]. repeat (split; [reflexivity|]). split.
    + intros channel id' Hin.
      repeat (apply elem_of_cons in Hin as [Hin|Hin]; [discriminate|]).
      inversion Hin.
    + discriminate.
Qed.

Lemma reply_body_move cfg w m s :
  exists new,
    move_effect cfg w (fun m' => m' = m) s (snd (reply_body cfg w m s)) new.
Proof.
  unfold reply_body, bind, get_replied_messages.
  destruct (db_fault w (trace s)) as [e|] eqn:Hfault; simpl.
  { eexists. apply move_effect_log. }
  set (s1 := log (EvSelectReplied (channel_id cfg) (msg_id m)) s).
  pose proof (move_effect_log cfg w (fun m' => m' = m) s
                (EvSelectReplied (channel_id cfg) (msg_id m))) as H01.
  fold s1 in H01.
  destruct (message_tracking s !! (channel_id cfg, msg_id m)) as [v|] eqn:Hkey.
  { rewrite bool_decide_eq_true_2 by eauto. simpl. eexists. exact H01. }
  rewrite bool_decide_eq_false_2 by (intros [? ?]; congruence). simpl.
  destruct (reply_to_message_accepted cfg w (msg_id m)
              (get_or_empty (msg_message m)) s1)
    as (b & s2 & new & Heq & Hw & Ht & Htr & Hnoins & Hacc).
  rewrite Heq.
  assert (H12 : move_effect cfg w (fun m' => m' = m) s1 s2 new).
  { split; auto. rewrite Ht. auto. }
  pose proof (move_effect_trans _ _ _ _ _ _ _ _ H01 H12) as H02.
  destruct b; simpl; [|eexists; exact H02].
  unfold add_replied_message.
  destruct (db_fault w (trace s2)) as [e|] eqn:Hfault2; simpl.
  { eexists. eapply move_effect_trans; [exact H02|]. apply move_effect_log. }
  rewrite Ht. simpl. rewrite Hkey. simpl.
  eexists (EvInsertReplied (channel_id cfg) (msg_id m)
             :: (new ++ [EvSelectReplied (channel_id cfg) (msg_id m)])).
  destruct H02 as [Ht02 Hk02 _]. split; simpl.
  - rewrite Ht02. reflexivity.
  - intros k v Hv.
    destruct (decide ((channel_id cfg, msg_id m) = k)) as [<-|Hne];
      [congruence|].
    rewrite lookup_insert_ne by exact Hne. exact Hv.
  - right. exists m. split; [reflexivity|]. split; [reflexivity|].
    split; [|split; [|split]].
    + rewrite accepted_replies_app. apply elem_of_app. left.
      apply (Hacc eq_refl).
    + intros [v Hv]. congruence.
    + eexists. apply lookup_insert_eq.
    + apply list_elem_of_here.
Qed.

Lemma reply_loop_move cfg w l :
  forall s, exists new,
    move_effect cfg w (fun m => m ∈ l) s (snd (reply_loop cfg w l s)) new.
Proof.
  induction l as [|m rest IH]; intros s; simpl.
  - exists []. apply move_effect_refl.
  - destruct (reply_body_move cfg w m s) as [new1 H1].
    unfold bind. destruct (reply_body cfg w m s) as [[[]|e] s1]; simpl in *.
    + destruct (IH s1) as [new2 H2]. exists (new2 ++ new1)%list.
      eapply move_effect_trans.
      * eapply move_effect_weaken; [|exact H1].
        intros m' ->. apply list_elem_of_here.
      * eapply move_effect_weaken; [|exact H2].
        intros m' Hm'. apply list_elem_of_further, Hm'.
    + exists new1. eapply move_effect_weaken; [|exact H1].
      intros m' ->. apply list_elem_of_here.
Qed.

(** The moves of the watermark in one pass. *)
Lemma tick_move cfg w s :
  exists new,
    move_effect cfg w (fun m => m ∈ candidates cfg w s) s (tick cfg w s) new.
Proof.
  unfold tick, process_new_messages.
  destruct (negb (truthy (last_processed_message_id s))); simpl.
  { exists []. apply move_effect_refl. }
  unfold bind. rewrite read_messages_eq.
  set (s1 := log _ s).
  pose proof (move_effect_log cfg w (fun m => m ∈ candidates cfg w s) s
                (EvReadMessages (channel_id cfg) (message_read_count cfg)))
    as H01.
  destruct (fetched cfg w s) as [|m rest] eqn:Hf; simpl.
  { eexists. exact H01. }
  destruct (reply_loop_move cfg w
              (new_messages (last_processed_message_id s) (m :: rest)) s1)
    as [new H12].
  eexists. eapply move_effect_trans; [exact H01|].
  unfold candidates. rewrite Hf. exact H12.
Qed.

Lemma ticks_move cfg w n :
  forall s, exists new,
    move_effect cfg w (fun _ => True) s (ticks cfg w n s) new.
Proof.
  induction n as [|n IH]; intros s; simpl.
  - exists []. apply move_effect_refl.
  - destruct (tick_move cfg w s) as [new1 H1].
    destruct (IH (tick cfg w s)) as [new2 H2].
    exists (new2 ++ new1)%list. eapply move_effect_trans; [|exact H2].
    eapply move_effect_weaken; [|exact H1]. auto.
Qed.


(** *** Numerals: the string order is the channel order *)








(** *** The claims *)




(** C2, as stated, fails: with a record for message 1 in the table,
    [add_replied_message] for the same key raises a unique violation; and
    called twice on an empty table, its second call raises. *)
Lemma C2_duplicate_insert_raises :
  fst (add_replied_message w_all_succeed "100" "1" s_recorded) =
    Raises (UniqueViolation "message_tracking_pkey") /\
  fst (add_replied_message w_all_succeed "100" "1" s0) = Returns tt /\
  fst (add_replied_message w_all_succeed "100" "1"
         (snd (add_replied_message w_all_succeed "100" "1" s0))) =
    Raises (UniqueViolation "message_tracking_pkey").
Proof. vm_compute. repeat split; reflexivity. Qed.

(** C2, amended.  With the database reachable, [add_replied_message] on a
    key that has a record raises a unique violation and leaves the table
    and the watermark unchanged; on a key without a record it returns and
    adds the record with the current timestamp, and a second call with the
    same key then raises. *)
Theorem C2_add_replied_message_inserts_once w channel id s :
  db_fault w (trace s) = None ->
  (recorded s channel id ->
   add_replied_message w channel id s =
   (Raises (UniqueViolation "message_tracking_pkey"),
    log (EvInsertReplied channel id) s)) /\
  (~ recorded s channel id ->
   exists s',
     add_replied_message w channel id s = (Returns tt, s') /\
     message_tracking s' =
       <[(channel, id) := now w (trace s)]> (message_tracking s) /\
     last_processed_message_id s' = last_processed_message_id s /\
     (db_fault w (trace s') = None ->
      fst (add_replied_message w channel id s') =
      Raises (UniqueViolation "message_tracking_pkey"))).
Proof.
  intros Hup. split.
  - intros [v Hv]. unfold add_replied_message. rewrite Hup, Hv. reflexivity.
  - intros Hnot. unfold add_replied_message at 1. rewrite Hup.
    destruct (message_tracking s !! (channel, id)) as [v|] eqn:Hkey.
    { destruct Hnot. exists v. exact Hkey. }
    eexists. split; [reflexivity|]. split; [reflexivity|].
    split; [reflexivity|]. simpl. intros Hup'.
    unfold add_replied_message. simpl. rewrite Hup'.
    rewrite lookup_insert_eq. reflexivity.
Qed.

Lemma C2_add_replied_message_inserts_once_witness :
  db_fault w_all_succeed (trace s_recorded) = None /\
  recorded s_recorded "100" "1" /\
  add_replied_message w_all_succeed "100" "1" s_recorded =
  (Raises (UniqueViolation "message_tracking_pkey"),
   log (EvInsertReplied "100" "1") s_recorded).
Proof.
  assert (Hup : db_fault w_all_succeed (trace s_recorded) = None)
    by reflexivity.
  assert (Hrec : recorded s_recorded "100" "1")
    by (exists 7; vm_compute; reflexivity).
  split; [exact Hup|]. split; [exact Hrec|].
  exact (proj1 (C2_add_replied_message_inserts_once w_all_succeed "100" "1"
                  s_recorded Hup) Hrec).
Defined.

(** *** Order of the candidates *)






(** C5.  After a pass, restart the agent with any watermark and run a
    second pass, over whatever the feed returns then: a message that has a
    record after the first pass gets no reply in the second.  And a record
    that the first pass added belongs to a message whose reply was sent
    and accepted in that pass. *)
Theorem C5_replay_issues_no_second_reply cfg w1 w2 s watermark id :
  recorded (tick cfg w1 s) (channel_id cfg) id ->
  ~ replied_in
      (new_events (restart watermark (tick cfg w1 s))
         (tick cfg w2 (restart watermark (tick cfg w1 s))))
      (channel_id cfg) id /\
  (~ recorded s (channel_id cfg) id ->
   accepted cfg w1 id /\
   replied_in (new_events s (tick cfg w1 s)) (channel_id cfg) id).
Proof.
  intros Hrec. split.
  - apply no_reply_when_recorded. exact Hrec.
  - intros Hnot.
    destruct (process_new_messages_effect cfg w1 s) as [new [Ht _ _ Hn _]].
    rewrite (new_events_app _ _ _ Ht).
    destruct (Hn (channel_id cfg, id)) as (id' & Hk & Hacc & Hrep).
    + destruct (message_tracking s !! (channel_id cfg, id)) as [v|] eqn:Hkey;
        [|reflexivity].
      destruct Hnot. exists v. exact Hkey.
    + exact Hrec.
    + inversion Hk; subst id'. split; assumption.
Qed.

Lemma C5_replay_issues_no_second_reply_witness :
  recorded (tick cfg0 w_all_succeed s0) (channel_id cfg0) "1" /\
  replies_sent (trace (tick cfg0 w_all_succeed s0)) = ["1"; "2"] /\
  replies_sent
    (new_events (restart "0" (tick cfg0 w_all_succeed s0))
       (tick cfg0 w_all_succeed (restart "0" (tick cfg0 w_all_succeed s0))))
    = [] /\
  ~ replied_in
      (new_events (restart "0" (tick cfg0 w_all_succeed s0))
         (tick cfg0 w_all_succeed (restart "0" (tick cfg0 w_all_succeed s0))))
      (channel_id cfg0) "1".
Proof.
  assert (Hrec : recorded (tick cfg0 w_all_succeed s0) (channel_id cfg0) "1")
    by (exists 5; vm_compute; reflexivity).
  split; [exact Hrec|]. split; [vm_compute; reflexivity|].
  split; [vm_compute; reflexivity|].
  exact (proj1 (C5_replay_issues_no_second_reply cfg0 w_all_succeed
                  w_all_succeed s0 "0" "1" Hrec)).
Defined.

(** C6, as stated, fails: a message of another user whose body contains
    the handle without the at-sign is a reply candidate. *)
Lemma C6_handle_in_body_is_candidate :
  py_in "zerecall" (lower (get_or_empty (msg_message m_names_agent))) = true /\
  new_messages "0" [m_names_agent] = [m_names_agent].
Proof. split; reflexivity. Qed.

(** C6, amended.  A message is never a reply candidate, whatever its id
    and the watermark, when its author contains [APP], or its author
    contains the handle in any letter case, or its body contains the
    handle with the at-sign in front, or with [<@] in front, in any letter
    case. *)
Theorem C6_bot_related_never_candidate watermark messages m :
  py_in "APP" (get_or_empty (msg_author m)) = true \/
  py_in "zerecall" (lower (get_or_empty (msg_author m))) = true \/
  py_in "@zerecall" (lower (get_or_empty (msg_message m))) = true \/
  py_in "<@zerecall" (lower (get_or_empty (msg_message m))) = true ->
  m ∉ new_messages watermark messages.
Proof.
  intros Hbot [_ Hc]%elem_of_new_messages.
  unfold is_candidate in Hc. apply andb_true_iff in Hc as [Hc _].
  apply negb_true_iff in Hc. unfold is_bot_related, existsb in Hc.
  rewrite !orb_false_iff in Hc.
  destruct Hc as [[[Happ Hauthor] Hmention] [_ [Hreference _]]].
  destruct Hbot as [H'|[H'|[H'|H']]]; congruence.
Qed.

Lemma C6_bot_related_never_candidate_witness :
  let m := from_bob "9" "hey @ZereCall check this" in
  py_in "@zerecall" (lower (get_or_empty (msg_message m))) = true /\
  py_gt (msg_id m) "0" = true /\
  m ∉ new_messages "0" [m2; m; m1].
Proof.
  cbv zeta. split; [reflexivity|]. split; [reflexivity|].
  apply C6_bot_related_never_candidate. right. right. left. reflexivity.
Defined.


(** *** Prompts *)

Lemma string_length_append (a b : string) :
  String.length (a +:+ b) = String.length a + String.length b.
Proof. induction a as [|c a IH]; simpl; [reflexivity|]. rewrite IH. reflexivity. Qed.

Lemma system_prompt_of_nil_iff cfg rows :
  system_prompt_of cfg rows = join nl (bio cfg) <-> rows = [].
Proof.
  split; [|intros ->; reflexivity].
  destruct rows as [|row rest]; [reflexivity|]. unfold system_prompt_of.
  intros H. apply (f_equal String.length) in H.
  rewrite string_length_append in H. simpl in H. lia.
Qed.

(** C7.  When the embedding or the similarity search raises,
    [get_similar_content] returns the empty list, and [_generate_reply]
    goes on to call the provider with the task prompt and a system prompt
    that is the joined bio lines alone; its result is the provider's.  The
    system prompt is the joined bio lines alone exactly when there is no
    snippet. *)
Theorem C7_context_failure_gives_plain_prompt cfg w s query e :
  similarity_search w (trace s) query 5 = Raises e ->
  (forall limit e',
     similarity_search w (trace s) query limit = Raises e' ->
     get_similar_content w query limit s =
     (Returns [], log (EvSimilarContent query limit) s)) /\
  _generate_reply cfg w query s =
    (generate_text_action w (EvSimilarContent query 5 :: trace s)
       (model_provider cfg) (task_prompt cfg query) (join nl (bio cfg)),
     log (EvGenerateText (model_provider cfg) (task_prompt cfg query)
            (join nl (bio cfg)))
       (log (EvSimilarContent query 5) s)) /\
  (forall rows, system_prompt_of cfg rows = join nl (bio cfg) <-> rows = []).
Proof.
  intros Hraise. split; [|split].
  - intros limit e' Hraise'. rewrite get_similar_content_eq, Hraise'.
    reflexivity.
  - rewrite _generate_reply_eq. cbv zeta. rewrite Hraise. reflexivity.
  - apply system_prompt_of_nil_iff.
Qed.

Lemma C7_context_failure_gives_plain_prompt_witness :
  similarity_search w_search_down (trace s0) "how do I install it?" 5 =
    Raises (OtherException "no API key") /\
  fst (_generate_reply cfg0 w_search_down "how do I install it?" s0) =
    Returns "Here is how." /\
  get_similar_content w_search_down "how do I install it?" 5 s0 =
    (Returns [], log (EvSimilarContent "how do I install it?" 5) s0).
Proof.
  assert (Hraise :
    similarity_search w_search_down (trace s0) "how do I install it?" 5 =
    Raises (OtherException "no API key")) by reflexivity.
  split; [exact Hraise|]. split; [reflexivity|].
  exact (proj1 (C7_context_failure_gives_plain_prompt cfg0 w_search_down s0
                  "how do I install it?" _ Hraise) 5 _ Hraise).
Defined.

(** C8.  [read_messages] never raises; when the "read-messages" action
    raises, or returns [None] or an empty list, it returns the empty
    list. *)
Theorem C8_read_messages_fails_soft cfg w s :
  (exists messages, fst (read_messages cfg w s) = Returns messages) /\
  ((exists e, read_messages_action w (trace s) (channel_id cfg)
                (message_read_count cfg) = Raises e) \/
   read_messages_action w (trace s) (channel_id cfg)
     (message_read_count cfg) = Returns None \/
   read_messages_action w (trace s) (channel_id cfg)
     (message_read_count cfg) = Returns (Some []) ->
   read_messages cfg w s =
   (Returns [],
    log (EvReadMessages (channel_id cfg) (message_read_count cfg)) s)).
Proof.
  split.
  - rewrite read_messages_eq. eexists. reflexivity.
  - intros H. rewrite read_messages_eq. unfold fetched.
    destruct H as [[e ->]|[->| ->]]; reflexivity.
Qed.

Lemma C8_read_messages_fails_soft_witness :
  read_messages_action w_feed_down (trace s0) (channel_id cfg0)
    (message_read_count cfg0) = Raises (OtherException "timeout") /\
  read_messages cfg0 w_feed_down s0 =
  (Returns [],
   log (EvReadMessages (channel_id cfg0) (message_read_count cfg0)) s0).
Proof.
  split; [reflexivity|].
  apply (proj2 (C8_read_messages_fails_soft cfg0 w_feed_down s0)).
  left. eexists. reflexivity.
Defined.

(** *** Startup *)

Lemma init_last_processed_message_id_eq cfg w s :
  init_last_processed_message_id cfg w s =
  (Returns tt,
   {| last_processed_message_id :=
        match fetched cfg w s with
        | m :: _ => if truthy (msg_id m) then msg_id m else "0"
        | [] => "0"
        end;
      message_tracking := message_tracking s;
      trace := EvReadMessages (channel_id cfg) (message_read_count cfg)
               :: trace s |}).
Proof.
  unfold init_last_processed_message_id, _get_latest_message_id, try_except,
    bind.
  rewrite read_messages_eq. unfold ret, set_last_processed_message_id. simpl.
  destruct (fetched cfg w s) as [|m rest]; reflexivity.
Qed.

Lemma message_id_above_zero id :
  is_message_id id = true -> truthy id = true /\ py_gt id "0" = true.
Proof.
  destruct id as [|c rest]; [discriminate|]. simpl.
  intros H. apply andb_true_iff in H as [H _]. split; [reflexivity|].
  revert H. unfold py_gt, String.ltb. simpl.
  destruct c as [[] [] [] [] [] [] [] []]; vm_compute; congruence.
Qed.

(** C9.  The startup code never raises.  When the first fetch returns
    messages, the watermark becomes the id of the first of them, the most
    recent one; when the fetch raises or returns nothing, the watermark
    becomes ["0"].  Every message id is above ["0"], so from the watermark
    ["0"] a fetched message is a candidate unless the self-filter drops
    it. *)
Theorem C9_startup_watermark cfg w s :
  fst (init_last_processed_message_id cfg w s) = Returns tt /\
  (forall m rest,
     read_messages_action w (trace s) (channel_id cfg)
       (message_read_count cfg) = Returns (Some (m :: rest)) ->
     msg_id m <> "" ->
     last_processed_message_id
       (snd (init_last_processed_message_id cfg w s)) = msg_id m) /\
  ((exists e, read_messages_action w (trace s) (channel_id cfg)
                (message_read_count cfg) = Raises e) \/
   read_messages_action w (trace s) (channel_id cfg)
     (message_read_count cfg) = Returns None \/
   read_messages_action w (trace s) (channel_id cfg)
     (message_read_count cfg) = Returns (Some []) ->
   last_processed_message_id
     (snd (init_last_processed_message_id cfg w s)) = "0") /\
  (forall w' s' m,
     last_processed_message_id s' = "0" ->
     m ∈ fetched cfg w' s' ->
     is_message_id (msg_id m) = true ->
     is_bot_related (get_or_empty (msg_author m))
       (get_or_empty (msg_message m)) = false ->
     m ∈ candidates cfg w' s').
Proof.
  rewrite init_last_processed_message_id_eq. simpl.
  split; [reflexivity|]. split; [|split].
  - intros m rest Hread Hid. unfold fetched. rewrite Hread.
    destruct (msg_id m); [congruence|reflexivity].
  - intros H. unfold fetched. destruct H as [[e ->]|[->| ->]]; reflexivity.
  - intros w' s' m Hw Hin Hid Hbot. unfold candidates.
    apply elem_of_new_messages. split; [exact Hin|].
    unfold is_candidate. rewrite Hbot, Hw.
    apply message_id_above_zero in Hid as [_ ->]. reflexivity.
Qed.

Lemma C9_startup_watermark_witness :
  last_processed_message_id
    (snd (init_last_processed_message_id cfg0 w_empty_channel s0)) = "0" /\
  last_processed_message_id
    (snd (init_last_processed_message_id cfg0 w_all_succeed s0)) = "2" /\
  m1 ∈ candidates cfg0 w_all_succeed s0.
Proof.
  split; [|split].
  - apply (proj1 (proj2 (proj2 (C9_startup_watermark cfg0 w_empty_channel
                                  s0)))).
    right. right. reflexivity.
  - apply (proj1 (proj2 (C9_startup_watermark cfg0 w_all_succeed s0))
             m2 [m1]); [reflexivity|discriminate].
  - apply (proj2 (proj2 (proj2 (C9_startup_watermark cfg0 w_all_succeed s0)))
             w_all_succeed s0 m1); try reflexivity.
    apply elem_of_cons. right. apply list_elem_of_here.
Defined.

End AgentProofs.

(* ===================================================================== *)
(** * Properties of the Twitter connection *)
(* ===================================================================== *)

Module TwitterProofs.
Import Eff Twitter TwitterScenario.

(** *** Binding of the keyword arguments *)

Lemma bind_arguments_present fname required (kwargs : gmap string PyVal) :
  Forall (fun p => is_Some (kwargs !! p)) required ->
  bind_arguments fname required kwargs = ret tt.
Proof.
  intros Hall. unfold bind_arguments.
  assert (Hnil : filter (fun p => kwargs !! p = None) required = []).
  { induction Hall as [|p l [v Hv] _ IH]; [reflexivity|].
    rewrite filter_cons. rewrite decide_False by congruence. exact IH. }
  rewrite Hnil. reflexivity.
Qed.

Lemma bind_arguments_missing fname required (kwargs : gmap string PyVal) p s :
  p ∈ required -> kwargs !! p = None ->
  exists msg, bind_arguments fname required kwargs s = (Raises (TypeError msg), s).
Proof.
  intros Hin Hnone. unfold bind_arguments.
  assert (Hp : p ∈ filter (fun p => kwargs !! p = None) required)
    by (apply list_elem_of_filter; split; assumption).
  destruct (filter (fun p => kwargs !! p = None) required) as [|q l].
  - inversion Hp.
  - eexists. reflexivity.
Qed.

(** *** The table of actions *)

Lemma actions_declared w action_name :
  is_Some (actions w !! action_name) <->
  action_name ∈ ["get-latest-tweets"; "post-tweet"; "read-timeline";
                 "like-tweet"; "reply-to-tweet"].
Proof.
  rewrite <- elem_of_dom. unfold actions. rewrite dom_list_to_map_L. simpl.
  rewrite !elem_of_union, !elem_of_singleton, !elem_of_cons, elem_of_nil.
  rewrite elem_of_empty. tauto.
Qed.


Lemma actions_get_latest_tweets w :
  actions w !! "get-latest-tweets" =
  Some {| func := get_latest_tweets w;
          args := [("username", "str"); ("count", "int")] |}.
Proof. reflexivity. Qed.

Lemma actions_post_tweet w :
  actions w !! "post-tweet" =
  Some {| func := post_tweet w; args := [("message", "str")] |}.
Proof. reflexivity. Qed.

Lemma actions_like_tweet w :
  actions w !! "like-tweet" =
  Some {| func := like_tweet w; args := [("tweet_id", "str")] |}.
Proof. reflexivity. Qed.

Lemma actions_reply_to_tweet w :
  actions w !! "reply-to-tweet" =
  Some {| func := reply_to_tweet w;
          args := [("tweet_id", "str"); ("message", "str")] |}.
Proof. reflexivity. Qed.

Lemma missing_argument_raises w action_name (kwargs : gmap string PyVal) p s :
  p ∈ required_parameters action_name -> kwargs !! p = None ->
  exists msg,
    perform_action w action_name kwargs s = (Raises (TypeError msg), s).
Proof.
  intros Hin Hnone. unfold required_parameters in Hin.
  unfold perform_action, perform_action_in.
  destruct (String.eqb action_name "get-latest-tweets") eqn:E1.
  { apply String.eqb_eq in E1 as ->. rewrite actions_get_latest_tweets.
    simpl. unfold get_latest_tweets, bind.
    destruct (bind_arguments_missing "get_latest_tweets" _ kwargs p s Hin Hnone)
      as [msg ->]. eexists. reflexivity. }
  destruct (String.eqb action_name "post-tweet") eqn:E2.
  { apply String.eqb_eq in E2 as ->. rewrite actions_post_tweet.
    simpl. unfold post_tweet, bind.
    destruct (bind_arguments_missing "post_tweet" _ kwargs p s Hin Hnone)
      as [msg ->]. eexists. reflexivity. }
  destruct (String.eqb action_name "like-tweet") eqn:E3.
  { apply String.eqb_eq in E3 as ->. rewrite actions_like_tweet.
    simpl. unfold like_tweet, bind.
    destruct (bind_arguments_missing "like_tweet" _ kwargs p s Hin Hnone)
      as [msg ->]. eexists. reflexivity. }
  destruct (String.eqb action_name "reply-to-tweet") eqn:E4.
  { apply String.eqb_eq in E4 as ->. rewrite actions_reply_to_tweet.
    simpl. unfold reply_to_tweet, bind.
    destruct (bind_arguments_missing "reply_to_tweet" _ kwargs p s Hin Hnone)
      as [msg ->]. eexists. reflexivity. }
  inversion Hin.
Qed.

(** C4, as stated, fails: [like-tweet] declares [tweet_id] as a str; called
    with the int 5 the arguments do not satisfy the declared schema, yet
    the call returns the API's answer and the request has been sent with
    the int in it. *)
Lemma C4_wrong_type_reaches_the_api :
  args <$> (actions w_online !! "like-tweet") = Some [("tweet_id", "str")] /\
  satisfies_schema [("tweet_id", "str")] kwargs_int_id = false /\
  perform_action w_online "like-tweet" kwargs_int_id st0 =
  (Returns (VDict [("data", VDict [("id", VStr "7")])]),
   {| _oauth_session := Some session0;
      trace := [EvRequest POST "https://api.twitter.com/2/users/42/likes"
                  (Json (VDict [("tweet_id", VInt 5)]))] |}).
Proof. split; [reflexivity|]. split; vm_compute; reflexivity. Qed.

(** C4, amended.  The names of the five handlers are the declared actions.
    For a name that is not declared, [perform_action] raises
    [TwitterConnectionError] with the state untouched: no handler runs and
    no request is made.  For a declared name it is the handler applied to
    the keyword arguments: the declared argument types are not checked.
    When a parameter that the handler's signature requires is not among the
    keyword arguments, the call raises [TypeError] with the state
    untouched. *)
Theorem C4_perform_action_dispatch w action_name kwargs s :
  (is_Some (actions w !! action_name) <->
   action_name ∈ ["get-latest-tweets"; "post-tweet"; "read-timeline";
                  "like-tweet"; "reply-to-tweet"]) /\
  (actions w !! action_name = None ->
   perform_action w action_name kwargs s =
   (Raises (TwitterConnectionError ("Unknown action: " +:+ action_name)), s)) /\
  (forall action, actions w !! action_name = Some action ->
   perform_action w action_name kwargs s = func action kwargs s) /\
  (forall p, p ∈ required_parameters action_name -> kwargs !! p = None ->
   exists msg,
     perform_action w action_name kwargs s = (Raises (TypeError msg), s)).
Proof.
  split; [apply actions_declared|]. split; [|split].
  - intros Hnone. unfold perform_action, perform_action_in. rewrite Hnone.
    reflexivity.
  - intros action Hsome. unfold perform_action, perform_action_in.
    rewrite Hsome. reflexivity.
  - intros p. apply missing_argument_raises.
Qed.

Lemma C4_perform_action_dispatch_witness :
  perform_action w_online "follow-user" kwargs_bad_arg st0 =
    (Raises (TwitterConnectionError "Unknown action: follow-user"), st0) /\
  exists msg,
    perform_action w_online "reply-to-tweet" kwargs_bad_arg st0 =
    (Raises (TypeError msg), st0).
Proof.
  split.
  - apply (proj1 (proj2 (C4_perform_action_dispatch w_online "follow-user"
                           kwargs_bad_arg st0))).
    reflexivity.
  - apply (proj2 (proj2 (proj2 (C4_perform_action_dispatch w_online
                                  "reply-to-tweet" kwargs_bad_arg st0)))
             "message").
    + apply elem_of_cons. right. apply list_elem_of_here.
    + reflexivity.
Defined.


(** *** Validation of the tweet text *)

Lemma _validate_tweet_text_str text context s :
  _validate_tweet_text (VStr text) context s =
  if negb (PyStr.truthy text)
  then (Raises (ValueError (context +:+ " text cannot be empty")), s)
  else if (280 <? String.length text)%nat
       then (Raises (ValueError (context +:+ " exceeds 280 character limit")), s)
       else (Returns tt, s).
Proof.
  unfold _validate_tweet_text. simpl.
  destruct (negb (PyStr.truthy text)); [reflexivity|].
  unfold bind, lift. simpl.
  destruct (280 <? String.length text)%nat; reflexivity.
Qed.

Lemma invalid_text_rejected text context s :
  text = "" \/ 280 < String.length text ->
  exists msg,
    _validate_tweet_text (VStr text) context s = (Raises (ValueError msg), s).
Proof.
  intros H. rewrite _validate_tweet_text_str.
  destruct text as [|c rest]; simpl.
  - eexists. reflexivity.
  - destruct H as [H|H]; [discriminate|].
    apply Nat.ltb_lt in H. simpl in H. rewrite H. eexists. reflexivity.
Qed.

Lemma valid_text_accepted text context s :
  text <> "" -> String.length text <= 280 ->
  _validate_tweet_text (VStr text) context s = (Returns tt, s).
Proof.
  intros Hne Hlen. rewrite _validate_tweet_text_str.
  destruct text as [|c rest]; [congruence|]. simpl.
  destruct (Nat.ltb_spec 280 (S (String.length rest))); [simpl in Hlen; lia|].
  reflexivity.
Qed.

Lemma _get_oauth_trace w s : trace (snd (_get_oauth w s)) = trace s.
Proof.
  unfold _get_oauth. destruct (_oauth_session s); [reflexivity|].
  unfold bind, _get_credentials.
  destruct (omap _ required_vars); reflexivity.
Qed.

(** With an OAuth session at hand, [_make_request] sends the request to the
    endpoint with the payload it was given. *)
Lemma _make_request_sends w method endpoint payload s session :
  fst (_get_oauth w s) = Returns session ->
  trace (snd (_make_request w method endpoint payload s)) =
  EvRequest method ("https://api.twitter.com/2/" +:+ lstrip_slash endpoint)
    payload :: trace s.
Proof.
  intros Hsession. pose proof (_get_oauth_trace w s) as Htrace.
  unfold _make_request, try_except, bind.
  destruct (_get_oauth w s) as [[session'|e] s1]; [|discriminate].
  simpl in Htrace. unfold send. rewrite Htrace.
  destruct (http w (trace s) method _ payload) as [response|e]; simpl.
  - destruct (negb (status_code response =? expected_status method)%nat);
      simpl; [reflexivity|].
    unfold lift. destruct (json response) as [body|e]; [reflexivity|].
    destruct e; reflexivity.
  - destruct e; reflexivity.
Qed.

Lemma post_tweet_eq w (kwargs : gmap string PyVal) message s :
  kwargs !! "message" = Some message ->
  post_tweet w kwargs s =
  match _validate_tweet_text message "Tweet" s with
  | (Returns _, s1) =>
      _make_request w POST "tweets" (Json (VDict [("text", message)])) s1
  | (Raises e, s1) => (Raises e, s1)
  end.
Proof.
  intros Hmessage. unfold post_tweet, argument.
  rewrite bind_arguments_present by (repeat constructor; eauto).
  rewrite Hmessage. unfold bind, ret. simpl.
  destruct (_validate_tweet_text message "Tweet" s) as [[[]|e] s1];
    [|reflexivity].
  destruct (_make_request w POST "tweets" _ s1) as [[r|e] s2]; reflexivity.
Qed.

Lemma reply_to_tweet_eq w (kwargs : gmap string PyVal) tweet_id message s :
  kwargs !! "tweet_id" = Some tweet_id ->
  kwargs !! "message" = Some message ->
  reply_to_tweet w kwargs s =
  match _validate_tweet_text message "Reply" s with
  | (Returns _, s1) =>
      _make_request w POST "tweets"
        (Json (VDict [("text", message);
                      ("reply", VDict [("in_reply_to_tweet_id", tweet_id)])]))
        s1
  | (Raises e, s1) => (Raises e, s1)
  end.
Proof.
  intros Hid Hmessage. unfold reply_to_tweet, argument.
  rewrite bind_arguments_present by (repeat constructor; eauto).
  rewrite Hmessage, Hid. unfold bind, ret. simpl.
  destruct (_validate_tweet_text message "Reply" s) as [[[]|e] s1];
    [|reflexivity].
  destruct (_make_request w POST "tweets" _ s1) as [[r|e] s2]; reflexivity.
Qed.

(** C10.  With the text of the [message] argument empty or longer than 280
    characters, [post_tweet] and [reply_to_tweet] raise [ValueError] and
    leave the state untouched, so no request is made.  Otherwise each is
    the call of [_make_request] that posts to [tweets] a payload holding
    the text as given; that call sends the request whenever an OAuth
    session is at hand. *)
Theorem C10_tweet_text_validated w kwargs text s :
  kwargs !! "message" = Some (VStr text) ->
  (text = "" \/ 280 < String.length text ->
   (exists msg, post_tweet w kwargs s = (Raises (ValueError msg), s)) /\
   (forall tweet_id, kwargs !! "tweet_id" = Some tweet_id ->
      exists msg, reply_to_tweet w kwargs s = (Raises (ValueError msg), s))) /\
  (text <> "" -> String.length text <= 280 ->
   post_tweet w kwargs s =
     _make_request w POST "tweets" (Json (VDict [("text", VStr text)])) s /\
   (forall session, fst (_get_oauth w s) = Returns session ->
      trace (snd (post_tweet w kwargs s)) =
        EvRequest POST "https://api.twitter.com/2/tweets"
          (Json (VDict [("text", VStr text)])) :: trace s) /\
   (forall tweet_id, kwargs !! "tweet_id" = Some tweet_id ->
      reply_to_tweet w kwargs s =
        _make_request w POST "tweets"
          (Json (VDict [("text", VStr text);
                        ("reply",
                         VDict [("in_reply_to_tweet_id", tweet_id)])])) s /\
      (forall session, fst (_get_oauth w s) = Returns session ->
         trace (snd (reply_to_tweet w kwargs s)) =
           EvRequest POST "https://api.twitter.com/2/tweets"
             (Json (VDict [("text", VStr text);
                           ("reply",
                            VDict [("in_reply_to_tweet_id", tweet_id)])]))
           :: trace s))).
Proof.
  intros Hmessage.
  rewrite (post_tweet_eq w kwargs _ s Hmessage).
  split.
  - intros Hbad. split.
    + destruct (invalid_text_rejected text "Tweet" s Hbad) as [msg ->].
      exists msg. reflexivity.
    + intros tweet_id Hid.
      rewrite (reply_to_tweet_eq w kwargs _ _ s Hid Hmessage).
      destruct (invalid_text_rejected text "Reply" s Hbad) as [msg ->].
      exists msg. reflexivity.
  - intros Hne Hlen.
    rewrite (valid_text_accepted text "Tweet" s Hne Hlen).
    split; [reflexivity|]. split.
    + intros session Hsession.
      apply (_make_request_sends w POST "tweets" _ s session Hsession).
    + intros tweet_id Hid.
      rewrite (reply_to_tweet_eq w kwargs _ _ s Hid Hmessage).
      rewrite (valid_text_accepted text "Reply" s Hne Hlen).
      split; [reflexivity|]. intros session Hsession.
      apply (_make_request_sends w POST "tweets" _ s session Hsession).
Qed.

(** An empty text is refused without a request; the text [hello] is
    posted as it is. *)
Lemma C10_tweet_text_validated_witness :
  (exists msg,
     post_tweet w_online (kwargs_message "") st0 =
     (Raises (ValueError msg), st0)) /\
  trace (snd (post_tweet w_online (kwargs_message "hello") st0)) =
  [EvRequest POST "https://api.twitter.com/2/tweets"
     (Json (VDict [("text", VStr "hello")]))].
Proof.
  split.
  - refine (proj1 (proj1 (C10_tweet_text_validated w_online
                            (kwargs_message "") "" st0 _) _)).
    + reflexivity.
    + left. reflexivity.
  - refine (proj1 (proj2 (proj2 (C10_tweet_text_validated w_online
                                   (kwargs_message "hello") "hello" st0 _)
                             _ _)) session0 _).
    + reflexivity.
    + discriminate.
    + simpl. lia.
    + reflexivity.
Defined.

End TwitterProofs.

(* ===================================================================== *)
(** * Further properties of the reply agent *)
(* ===================================================================== *)

Module AgentExtraProofs.
Import PyStr Eff Agent AgentSpec Scenario AgentMore AgentProofs.

(** *** The self-filter on the body *)

Lemma lower_app (a b : string) : lower (a +:+ b) = lower a +:+ lower b.
Proof. induction a as [|c a IH]; simpl; [reflexivity|]. rewrite IH. reflexivity. Qed.

Lemma prefix_app (needle rest : string) :
  String.prefix needle (needle +:+ rest) = true.
Proof.
  induction needle as [|c needle IH]; simpl; [destruct rest; reflexivity|].
  destruct (ascii_dec c c); [exact IH|congruence].
Qed.

Lemma py_in_prefix (needle hay : string) :
  String.prefix needle hay = true -> py_in needle hay = true.
Proof. destruct hay; simpl; intros ->; reflexivity. Qed.

Lemma py_in_app (needle pre post : string) :
  py_in needle (pre +:+ needle +:+ post) = true.
Proof.
  induction pre as [|c pre IH].
  - change ("" +:+ needle +:+ post) with (needle +:+ post).
    apply py_in_prefix, prefix_app.
  - change (String c pre +:+ needle +:+ post)
      with (String c (pre +:+ needle +:+ post)).
    simpl. rewrite IH. apply orb_true_r.
Qed.

(** X1.  A message whose body holds the mention [@zerecall] anywhere, in
    any letter case, is dropped by the self-filter whoever its author is,
    and is no candidate whatever the watermark. *)
Theorem mention_anywhere_is_skipped watermark messages m pre mention post :
  get_or_empty (msg_message m) = pre +:+ mention +:+ post ->
  lower mention = "@zerecall" ->
  is_bot_related (get_or_empty (msg_author m))
    (get_or_empty (msg_message m)) = true /\
  m ∉ new_messages watermark messages.
Proof.
  intros Hbody Hmention.
  assert (Hin : py_in "@zerecall" (lower (get_or_empty (msg_message m))) = true).
  { rewrite Hbody, !lower_app, Hmention. apply py_in_app. }
  split.
  - unfold is_bot_related. rewrite Hin. rewrite orb_true_r. reflexivity.
  - intros [_ Hc]%elem_of_new_messages. unfold is_candidate in Hc.
    apply andb_true_iff in Hc as [Hc _]. apply negb_true_iff in Hc.
    unfold is_bot_related in Hc. rewrite Hin, orb_true_r in Hc. discriminate.
Qed.

Lemma mention_anywhere_is_skipped_witness :
  let m := from_bob "9" "thanks <@ZERECALL> for the tip" in
  is_bot_related (get_or_empty (msg_author m))
    (get_or_empty (msg_message m)) = true /\
  m ∉ new_messages "0" [m; m1].
Proof.
  cbv zeta.
  apply (mention_anywhere_is_skipped "0" _ _ "thanks <" "@ZERECALL"
           "> for the tip"); reflexivity.
Defined.

(** *** The watermark test *)

Lemma candidate_weaken_watermark (w w' : string) (m : Message) :
  (w ≤ w')%string -> is_candidate w' m = true -> is_candidate w m = true.
Proof.
  intros Hle Hc. unfold is_candidate in *.
  apply andb_true_iff in Hc as [Hbot Hgt]. rewrite Hbot. simpl.
  destruct (py_gt (msg_id m) w) eqn:Hw; [reflexivity|].
  apply not_py_gt_le in Hw.
  assert (Hle' : (msg_id m ≤ w')%string) by (etrans; eassumption).
  apply le_py_gt_false in Hle'. congruence.
Qed.

Lemma sublist_list_filter {A} (f g : A -> bool) (l : list A) :
  (forall x, f x = true -> g x = true) ->
  sublist (List.filter f l) (List.filter g l).
Proof.
  intros Himp. induction l as [|x l IH]; simpl; [constructor|].
  destruct (f x) eqn:Hf.
  - rewrite (Himp x Hf). constructor. exact IH.
  - destruct (g x); [constructor|]; exact IH.
Qed.

(** X2.  Raising the watermark only removes candidates: for watermarks
    [w ≤ w'] the candidates above [w'] are, in the same order, among the
    candidates above [w]. *)
Theorem higher_watermark_fewer_candidates (w w' : string) messages :
  (w ≤ w')%string ->
  sublist (new_messages w' messages) (new_messages w messages).
Proof.
  intros Hle. unfold new_messages. rewrite !collect_new_filter.
  apply sublist_list_filter. intros m. apply candidate_weaken_watermark, Hle.
Qed.

Lemma higher_watermark_fewer_candidates_witness :
  ("3" ≤ "4")%string /\
  map msg_id (new_messages "3" [m5; m4; m3]) = ["4"; "5"] /\
  map msg_id (new_messages "4" [m5; m4; m3]) = ["5"] /\
  sublist (new_messages "4" [m5; m4; m3]) (new_messages "3" [m5; m4; m3]).
Proof.
  assert (Hle : ("3" ≤ "4")%string) by (vm_compute; exact I).
  split; [exact Hle|]. split; [reflexivity|]. split; [reflexivity|].
  exact (higher_watermark_fewer_candidates "3" "4" [m5; m4; m3] Hle).
Defined.

(** *** What a pass replies to *)

(** X3.  Every "reply-to-message" call of a pass goes to the agent's
    channel and to a fetched message that passes the self-filter, whose id
    is above the watermark of the start of the pass, and that has no record
    in the table at the start of the pass. *)
Theorem replies_only_to_eligible cfg w s channel id reply :
  EvReplyToMessage channel id reply ∈ new_events s (tick cfg w s) ->
  channel = channel_id cfg /\
  (exists m, m ∈ fetched cfg w s /\ msg_id m = id /\
             is_bot_related (get_or_empty (msg_author m))
               (get_or_empty (msg_message m)) = false) /\
  py_gt id (last_processed_message_id s) = true /\
  ~ recorded s (channel_id cfg) id.
Proof.
  intros Hin.
  destruct (process_new_messages_effect cfg w s) as [new [Ht _ _ _ Hr]].
  rewrite (new_events_app _ _ _ Ht) in Hin.
  destruct (Hr _ _ _ Hin) as (Hc & Hid & Hnone).
  apply list_elem_of_fmap in Hid as (m & -> & Hm).
  unfold candidates in Hm. apply elem_of_new_messages in Hm as [Hf Hcand].
  unfold is_candidate in Hcand. apply andb_true_iff in Hcand as [Hbot Hgt].
  apply negb_true_iff in Hbot.
  split; [exact Hc|]. split; [exists m; auto|]. split; [exact Hgt|].
  intros [v Hv]. congruence.
Qed.

Lemma replies_only_to_eligible_witness :
  EvReplyToMessage "100" "2" "Here is how."
    ∈ new_events s_recorded (tick cfg0 w_all_succeed s_recorded) /\
  replies_sent (new_events s_recorded (tick cfg0 w_all_succeed s_recorded))
    = ["2"] /\
  ~ recorded s_recorded (channel_id cfg0) "2".
Proof.
  assert (Hin : EvReplyToMessage "100" "2" "Here is how."
                  ∈ new_events s_recorded (tick cfg0 w_all_succeed s_recorded)).
  { vm_compute. apply list_elem_of_further, list_elem_of_here. }
  split; [exact Hin|]. split; [vm_compute; reflexivity|].
  exact (proj2 (proj2 (proj2 (replies_only_to_eligible cfg0 w_all_succeed
                                s_recorded _ _ _ Hin)))).
Defined.


(** *** The table over passes *)

(** X4.  No number of passes removes or alters a record of the table: a
    record keeps its timestamp. *)
Theorem records_are_kept cfg w n s k v :
  message_tracking s !! k = Some v ->
  message_tracking (ticks cfg w n s) !! k = Some v.
Proof.
  revert s. induction n as [|n IH]; intros s Hv; simpl; [exact Hv|].
  apply IH.
  destruct (process_new_messages_effect cfg w s) as [new [_ _ Hk _ _]].
  apply Hk, Hv.
Qed.

Lemma records_are_kept_witness :
  message_tracking s_recorded !! ("100", "1") = Some 7 /\
  message_tracking (ticks cfg0 w_all_succeed 3 s_recorded) !! ("100", "1")
    = Some 7.
Proof.
  assert (Hv : message_tracking s_recorded !! ("100", "1") = Some 7)
    by (vm_compute; reflexivity).
  split; [exact Hv|].
  exact (records_are_kept cfg0 w_all_succeed 3 s_recorded _ _ Hv).
Defined.

(** X5.  The watermark moves only by an insert: when, after any number of
    ticks, it is not the one of the start, it is the id of a message that
    had no record at the start and has one now, whose insert is among the
    events since the start, and whose reply the feed accepted since the
    start. *)
Theorem moved_watermark_is_recorded cfg w n s :
  last_processed_message_id (ticks cfg w n s) = last_processed_message_id s \/
  (~ recorded s (channel_id cfg) (last_processed_message_id (ticks cfg w n s)) /\
   recorded (ticks cfg w n s) (channel_id cfg)
     (last_processed_message_id (ticks cfg w n s)) /\
   EvInsertReplied (channel_id cfg)
     (last_processed_message_id (ticks cfg w n s))
     ∈ new_events s (ticks cfg w n s) /\
   accepted_during cfg w s (ticks cfg w n s)
     (last_processed_message_id (ticks cfg w n s))).
Proof.
  destruct (ticks_move cfg w n s) as [new [Ht _ Hmove]].
  destruct Hmove as [Hw|(m & _ & Hw & Hacc & Hnot & Hrec & Hins)];
    [left; exact Hw|right].
  unfold accepted_during. rewrite (new_events_app _ _ _ Ht), Hw. auto.
Qed.

(** *** Database failures *)

Lemma reply_loop_database_down cfg w m rest s :
  database_down w ->
  exists e,
    reply_loop cfg w (m :: rest) s =
    (Raises e, log (EvSelectReplied (channel_id cfg) (msg_id m)) s).
Proof.
  intros Hdown. simpl. unfold bind, reply_body, bind, get_replied_messages.
  destruct (db_fault w (trace s)) as [e|] eqn:Hf; [|destruct (Hdown _ Hf)].
  exists e. reflexivity.
Qed.

(** X6.  While the database is down, a pass sends no reply and asks the
    provider for none: it makes the fetch and at most one dedup check,
    and leaves the watermark and the table as they are. *)
Theorem database_down_no_reply cfg w s :
  database_down w ->
  last_processed_message_id (tick cfg w s) = last_processed_message_id s /\
  message_tracking (tick cfg w s) = message_tracking s /\
  forallb is_read_only (new_events s (tick cfg w s)) = true /\
  length (new_events s (tick cfg w s)) <= 2.
Proof.
  intros Hdown. unfold tick, process_new_messages.
  destruct (negb (truthy (last_processed_message_id s))); simpl.
  { rewrite (new_events_app s s []) by reflexivity. simpl. repeat split; auto. }
  unfold bind. rewrite read_messages_eq.
  destruct (fetched cfg w s) as [|m rest]; simpl.
  { rewrite (new_events_app s _ [EvReadMessages (channel_id cfg)
                                   (message_read_count cfg)]) by reflexivity.
    simpl. repeat split; auto. }
  destruct (new_messages (last_processed_message_id s) (m :: rest))
    as [|c cs].
  { simpl.
    rewrite (new_events_app s _ [EvReadMessages (channel_id cfg)
                                   (message_read_count cfg)]) by reflexivity.
    simpl. repeat split; auto. }
  destruct (reply_loop_database_down cfg w c cs
              (log (EvReadMessages (channel_id cfg) (message_read_count cfg)) s)
              Hdown) as [e ->].
  simpl.
  rewrite (new_events_app s _ [EvSelectReplied (channel_id cfg) (msg_id c);
                               EvReadMessages (channel_id cfg)
                                 (message_read_count cfg)]) by reflexivity.
  simpl. repeat split; auto.
Qed.

Lemma database_down_no_reply_witness :
  database_down w_database_down /\
  candidates cfg0 w_database_down s0 = [m1; m2] /\
  replies_sent (trace (tick cfg0 w_database_down s0)) = [] /\
  last_processed_message_id (tick cfg0 w_database_down s0) = "0".
Proof.
  assert (Hdown : database_down w_database_down) by (intros tr; discriminate).
  split; [exact Hdown|]. split; [reflexivity|]. split; [vm_compute; reflexivity|].
  exact (proj1 (database_down_no_reply cfg0 w_database_down s0 Hdown)).
Defined.


(** X7.  When the dedup check finds no record, the reply is sent and
    accepted, and the insert then fails, the iteration raises the database
    error with the watermark and the table as they were: the reply is out
    and nothing records it. *)
Theorem accepted_reply_lost_when_insert_fails cfg w m s s2 e :
  db_fault w (trace s) = None ->
  ~ recorded s (channel_id cfg) (msg_id m) ->
  reply_to_message cfg w (msg_id m) (get_or_empty (msg_message m))
    (log (EvSelectReplied (channel_id cfg) (msg_id m)) s) = (Returns true, s2) ->
  db_fault w (trace s2) = Some e ->
  reply_body cfg w m s =
    (Raises e, log (EvInsertReplied (channel_id cfg) (msg_id m)) s2) /\
  last_processed_message_id (snd (reply_body cfg w m s)) =
    last_processed_message_id s /\
  message_tracking (snd (reply_body cfg w m s)) = message_tracking s /\
  replied_in (new_events s (snd (reply_body cfg w m s))) (channel_id cfg)
    (msg_id m).
Proof.
  intros Hup Hnot Hreply Hfault.
  assert (Hbody : reply_body cfg w m s =
            (Raises e, log (EvInsertReplied (channel_id cfg) (msg_id m)) s2)).
  { unfold reply_body, bind, get_replied_messages. rewrite Hup.
    rewrite bool_decide_eq_false_2 by exact Hnot. simpl.
    rewrite Hreply. unfold add_replied_message. rewrite Hfault. reflexivity. }
  rewrite Hbody. simpl.
  destruct (reply_to_message_effect cfg w (msg_id m)
              (get_or_empty (msg_message m))
              (log (EvSelectReplied (channel_id cfg) (msg_id m)) s))
    as (b & s2' & new & Heq & Hw & Ht & Htr & _ & Hacc).
  rewrite Hreply in Heq. inversion Heq; subst b s2'.
  split; [reflexivity|]. split; [exact Hw|]. split; [exact Ht|].
  destruct (Hacc eq_refl) as [_ [reply Hin]].
  rewrite (new_events_app s _
             (EvInsertReplied (channel_id cfg) (msg_id m)
                :: new ++ [EvSelectReplied (channel_id cfg) (msg_id m)])).
  - exists reply. apply elem_of_cons. right. apply elem_of_app. left. exact Hin.
  - simpl. rewrite Htr. simpl. rewrite <- app_assoc. reflexivity.
Qed.

(** With such a database the same message is replied to on every tick. *)
Lemma accepted_reply_lost_when_insert_fails_witness :
  fst (reply_body cfg0 w_insert_fails m1 s0) =
    Raises (OperationalError "connection lost") /\
  last_processed_message_id (snd (reply_body cfg0 w_insert_fails m1 s0)) = "0" /\
  replies_sent (trace (ticks cfg0 w_insert_fails 2 s0)) = ["1"; "1"].
Proof.
  assert (Hup : db_fault w_insert_fails (trace s0) = None) by reflexivity.
  assert (Hnot : ~ recorded s0 (channel_id cfg0) (msg_id m1)).
  { intros [v Hv]. vm_compute in Hv. discriminate. }
  pose proof (accepted_reply_lost_when_insert_fails cfg0 w_insert_fails m1 s0
                _ _ Hup Hnot eq_refl eq_refl) as (Hbody & Hw & _).
  split; [rewrite Hbody; reflexivity|]. split; [exact Hw|].
  vm_compute. reflexivity.
Defined.

(** *** The number of replies *)








(** *** Insert and lookup *)

(** X9.  After [add_replied_message] has returned, the record is in the
    table: [get_replied_messages] for the same key returns [True] when the
    database answers, and the records of all other keys are as before. *)
Theorem insert_then_lookup w channel id s :
  fst (add_replied_message w channel id s) = Returns tt ->
  (db_fault w (trace (snd (add_replied_message w channel id s))) = None ->
   fst (get_replied_messages w channel id
          (snd (add_replied_message w channel id s))) = Returns true) /\
  (forall k, k <> (channel, id) ->
     message_tracking (snd (add_replied_message w channel id s)) !! k =
     message_tracking s !! k).
Proof.
  unfold add_replied_message.
  destruct (db_fault w (trace s)) as [e|]; simpl; [discriminate|].
  destruct (message_tracking s !! (channel, id)) eqn:Hkey; simpl;
    [discriminate|].
  intros _. split.
  - intros Hup. unfold get_replied_messages. simpl in *. rewrite Hup. simpl.
    rewrite bool_decide_eq_true_2; [reflexivity|].
    eexists. apply lookup_insert_eq.
  - intros k Hk. apply lookup_insert_ne. congruence.
Qed.

Lemma insert_then_lookup_witness :
  fst (add_replied_message w_all_succeed "100" "2" s_recorded) = Returns tt /\
  fst (get_replied_messages w_all_succeed "100" "2"
         (snd (add_replied_message w_all_succeed "100" "2" s_recorded)))
    = Returns true /\
  message_tracking (snd (add_replied_message w_all_succeed "100" "2" s_recorded))
    !! ("100", "1") = Some 7.
Proof.
  assert (Hok : fst (add_replied_message w_all_succeed "100" "2" s_recorded)
                = Returns tt) by (vm_compute; reflexivity).
  pose proof (insert_then_lookup w_all_succeed "100" "2" s_recorded Hok)
    as [Hget Hother].
  split; [exact Hok|]. split; [apply Hget; reflexivity|].
  rewrite Hother by discriminate. vm_compute. reflexivity.
Defined.

(** *** The agent file *)

(** X10.  The check of the agent file passes exactly when all six required
    fields are there; otherwise it raises an error that names the missing
    fields, each of them required and absent, in the order of
    [REQUIRED_FIELDS]. *)
Theorem required_fields_checked {V} (agent_dict : gmap string V) :
  (check_required_fields agent_dict = Returns tt <->
   forall field, field ∈ REQUIRED_FIELDS -> is_Some (agent_dict !! field)) /\
  (check_required_fields agent_dict <> Returns tt ->
   check_required_fields agent_dict =
     Raises (OtherException
               ("KeyError: Missing required fields: " +:+
                join ", " (missing_fields agent_dict))) /\
   sublist (missing_fields agent_dict) REQUIRED_FIELDS /\
   forall field, field ∈ missing_fields agent_dict <->
                 field ∈ REQUIRED_FIELDS /\ agent_dict !! field = None).
Proof.
  assert (Hmem : forall field, field ∈ missing_fields agent_dict <->
                   field ∈ REQUIRED_FIELDS /\ agent_dict !! field = None).
  { intros field. unfold missing_fields. rewrite list_elem_of_filter. tauto. }
  unfold check_required_fields. split; [split|].
  - destruct (missing_fields agent_dict) as [|f l] eqn:Hm; [|discriminate].
    intros _ field Hin.
    destruct (agent_dict !! field) eqn:Hf; [eauto|].
    assert (Hx : field ∈ []) by (apply Hmem; auto). inversion Hx.
  - intros Hall. destruct (missing_fields agent_dict) as [|f l] eqn:Hm;
      [reflexivity|].
    assert (Hf : f ∈ f :: l) by apply list_elem_of_here.
    apply Hmem in Hf as [Hin Hnone]. destruct (Hall f Hin) as [v Hv].
    congruence.
  - intros Hne. destruct (missing_fields agent_dict) as [|f l] eqn:Hm;
      [congruence|].
    split; [reflexivity|]. split; [|exact Hmem].
    rewrite <- Hm. unfold missing_fields. apply sublist_filter.
Qed.

End AgentExtraProofs.

(* ===================================================================== *)
(** * Further properties of the Twitter connection *)
(* ===================================================================== *)

Module TwitterExtraProofs.
Import Eff Twitter TwitterScenario TwitterMore TwitterProofs.

(** *** Credentials and the OAuth session *)

Lemma missing_descriptions_nil w :
  omap (fun '(env_var, description) =>
          if getenv_missing w env_var then Some description else None)
    required_vars = [] <-> credentials_set w.
Proof.
  unfold credentials_set. generalize required_vars. intros vars.
  induction vars as [|[env_var description] vars IH]; simpl.
  - split; [constructor|reflexivity].
  - destruct (getenv_missing w env_var) eqn:Hm; simpl.
    + split; [discriminate|]. intros H. inversion H; subst. simpl in *.
      congruence.
    + rewrite IH. split; [constructor; assumption|].
      intros H. inversion H; assumption.
Qed.

(** X11.  [_get_credentials] returns exactly when all five variables are
    set to non-empty values; otherwise it raises
    [TwitterConfigurationError].  Either way it leaves the state. *)
Theorem credentials_required w s :
  (_get_credentials w s = (Returns tt, s) <-> credentials_set w) /\
  (~ credentials_set w ->
   exists msg, _get_credentials w s = (Raises (TwitterConfigurationError msg), s)).
Proof.
  pose proof (missing_descriptions_nil w) as Hnil.
  unfold _get_credentials.
  destruct (omap _ required_vars) as [|d l]; split.
  - split; [intros _; apply Hnil; reflexivity|reflexivity].
  - intros Hnot. destruct Hnot. apply Hnil. reflexivity.
  - split; [discriminate|]. intros Hset. apply Hnil in Hset. discriminate.
  - intros _. eexists. reflexivity.
Qed.

Lemma _get_oauth_cached w s session :
  _oauth_session s = Some session -> _get_oauth w s = (Returns session, s).
Proof. intros H. unfold _get_oauth. rewrite H. reflexivity. Qed.

Lemma _get_oauth_stores w s session s' :
  _get_oauth w s = (Returns session, s') -> _oauth_session s' = Some session.
Proof.
  unfold _get_oauth. destruct (_oauth_session s) as [cached|] eqn:Hs.
  - intros [= <- <-]. exact Hs.
  - unfold bind, _get_credentials.
    destruct (omap _ required_vars); simpl; [|discriminate].
    intros [= <- <-]. reflexivity.
Qed.

(** X12.  Once [_get_oauth] has returned a session, the session is cached:
    every later call returns the same session and changes nothing, whatever
    the credentials are by then. *)
Theorem oauth_session_is_cached w s session :
  fst (_get_oauth w s) = Returns session ->
  _oauth_session (snd (_get_oauth w s)) = Some session /\
  forall w', _get_oauth w' (snd (_get_oauth w s)) =
             (Returns session, snd (_get_oauth w s)).
Proof.
  destruct (_get_oauth w s) as [o s'] eqn:Heq. simpl. intros ->.
  apply _get_oauth_stores in Heq. split; [exact Heq|].
  intros w'. apply _get_oauth_cached, Heq.
Qed.

Lemma oauth_session_is_cached_witness :
  fst (_get_oauth w_online st0) = Returns session0 /\
  _get_oauth w_unconfigured (snd (_get_oauth w_online st0)) =
  (Returns session0, snd (_get_oauth w_online st0)).
Proof.
  assert (H : fst (_get_oauth w_online st0) = Returns session0)
    by (vm_compute; reflexivity).
  split; [exact H|].
  exact (proj2 (oauth_session_is_cached w_online st0 session0 H) w_unconfigured).
Defined.


Lemma _get_oauth_available w s :
  credentials_set w -> exists session, fst (_get_oauth w s) = Returns session.
Proof.
  intros Hset. unfold _get_oauth.
  destruct (_oauth_session s) as [cached|]; [eexists; reflexivity|].
  unfold bind. rewrite (proj2 (proj1 (credentials_required w s)) Hset).
  eexists. reflexivity.
Qed.

(** *** Requests *)

(** X13.  Whatever goes wrong in [_make_request], the exception that
    leaves it is a [TwitterAPIError]. *)
Theorem make_request_raises_api_error w method endpoint payload s e :
  fst (_make_request w method endpoint payload s) = Raises e ->
  exists msg, e = TwitterAPIError msg.
Proof.
  unfold _make_request, try_except, bind.
  destruct (_get_oauth w s) as [[session|e0] s1]; simpl.
  - unfold send.
    destruct (http w (trace s1) method _ payload) as [response|e1]; simpl.
    + destruct (negb (status_code response =? expected_status method)%nat);
        simpl.
      * intros [= <-]. eexists. reflexivity.
      * unfold lift. destruct (json response) as [body|e2]; simpl;
          [discriminate|].
        destruct e2; simpl; intros [= <-]; eexists; reflexivity.
    + destruct e1; simpl; intros [= <-]; eexists; reflexivity.
  - destruct e0; simpl; intros [= <-]; eexists; reflexivity.
Qed.

Lemma make_request_raises_api_error_witness :
  fst (_make_request w_unconfigured GET "users/me" (Params VNone) st0) =
    Raises (TwitterAPIError
              "API request failed: Missing Twitter credentials: consumer key, consumer secret, access token, access token secret, user ID") /\
  exists msg,
    TwitterAPIError
      "API request failed: Missing Twitter credentials: consumer key, consumer secret, access token, access token secret, user ID"
    = TwitterAPIError msg.
Proof.
  assert (H : fst (_make_request w_unconfigured GET "users/me" (Params VNone)
                     st0) =
              Raises (TwitterAPIError
                        "API request failed: Missing Twitter credentials: consumer key, consumer secret, access token, access token secret, user ID"))
    by (vm_compute; reflexivity).
  split; [exact H|].
  exact (make_request_raises_api_error w_unconfigured GET "users/me"
           (Params VNone) st0 _ H).
Defined.

(** X14.  With an OAuth session at hand, [_make_request] returns a body
    exactly when the API answers with the expected status, 201 for a POST
    and 200 for a GET, and a body that decodes; the body is returned as
    decoded. *)
Theorem make_request_returns_iff w method endpoint payload s session body :
  fst (_get_oauth w s) = Returns session ->
  (fst (_make_request w method endpoint payload s) = Returns body <->
   exists response,
     http w (trace s) method
       ("https://api.twitter.com/2/" +:+ lstrip_slash endpoint) payload
       = Returns response /\
     status_code response = expected_status method /\
     json response = Returns body).
Proof.
  intros Hsession. pose proof (_get_oauth_trace w s) as Htrace.
  unfold _make_request, try_except, bind.
  destruct (_get_oauth w s) as [[session'|e0] s1]; [|discriminate].
  simpl in Htrace. unfold send. rewrite Htrace.
  destruct (http w (trace s) method _ payload) as [response|e1]; simpl.
  - destruct (Nat.eqb_spec (status_code response) (expected_status method))
      as [Hst|Hst]; simpl.
    + unfold lift. destruct (json response) as [b|e2] eqn:Hj; simpl.
      * split.
        -- intros [= ->]. exists response. auto.
        -- intros (r & [= <-] & _ & Hb). rewrite Hj in Hb. congruence.
      * split.
        -- destruct e2; discriminate.
        -- intros (r & [= <-] & _ & Hb). rewrite Hj in Hb. discriminate.
    + split; [discriminate|]. intros (r & [= <-] & Hs & _). contradiction.
  - split; [destruct e1; discriminate|]. intros (r & Hr & _). discriminate.
Qed.

(** A POST answered with status 200 is an error. *)
Lemma make_request_returns_iff_witness :
  fst (_get_oauth w_online st0) = Returns session0 /\
  fst (_make_request w_online POST "/tweets" (Json VNone) st0) =
    Returns (VDict [("data", VDict [("id", VStr "7")])]) /\
  fst (_make_request w_status_200 POST "/tweets" (Json VNone) st0) =
    Raises (TwitterAPIError "Request failed with status 200: ok").
Proof.
  assert (H : fst (_get_oauth w_online st0) = Returns session0)
    by (vm_compute; reflexivity).
  split; [exact H|]. split; [|vm_compute; reflexivity].
  apply (make_request_returns_iff w_online POST "/tweets" (Json VNone) st0
           session0 _ H).
  exists created. repeat split; reflexivity.
Defined.

(** X15.  Without a cached session and with a credential missing,
    [_make_request] raises [TwitterAPIError] and sends nothing: the state
    is as before. *)
Theorem make_request_needs_credentials w method endpoint payload s :
  _oauth_session s = None ->
  ~ credentials_set w ->
  exists msg,
    _make_request w method endpoint payload s = (Raises (TwitterAPIError msg), s).
Proof.
  intros Hnone Hnot.
  destruct (proj2 (credentials_required w s) Hnot) as [msg Hmsg].
  unfold _make_request, try_except, bind, _get_oauth. rewrite Hnone.
  unfold bind. rewrite Hmsg. simpl. eexists. reflexivity.
Qed.

Lemma make_request_needs_credentials_witness :
  _oauth_session st0 = None /\ ~ credentials_set w_unconfigured /\
  exists msg,
    _make_request w_unconfigured POST "tweets" (Json VNone) st0 =
    (Raises (TwitterAPIError msg), st0).
Proof.
  assert (Hnot : ~ credentials_set w_unconfigured).
  { intros H. inversion H as [|? ? Hhd _]. vm_compute in Hhd. discriminate. }
  split; [reflexivity|]. split; [exact Hnot|].
  exact (make_request_needs_credentials w_unconfigured POST "tweets"
           (Json VNone) st0 eq_refl Hnot).
Defined.

(** X16.  [like_tweet], [get_latest_tweets] and [read_timeline] read the
    credentials themselves: called with their required arguments while a
    credential is missing they raise [TwitterConfigurationError] and send
    nothing, also when an OAuth session is cached. *)
Theorem handlers_need_credentials w (kwargs : gmap string PyVal) s :
  ~ credentials_set w ->
  (is_Some (kwargs !! "tweet_id") ->
   exists msg,
     like_tweet w kwargs s = (Raises (TwitterConfigurationError msg), s)) /\
  (is_Some (kwargs !! "username") ->
   exists msg,
     get_latest_tweets w kwargs s =
     (Raises (TwitterConfigurationError msg), s)) /\
  (exists msg,
     read_timeline w kwargs s = (Raises (TwitterConfigurationError msg), s)).
Proof.
  intros Hnot.
  destruct (proj2 (credentials_required w s) Hnot) as [msg Hmsg].
  split; [|split].
  - intros Hid. unfold like_tweet.
    rewrite bind_arguments_present by (repeat constructor; exact Hid).
    unfold bind, ret. rewrite Hmsg. exists msg. reflexivity.
  - intros Hu. unfold get_latest_tweets.
    rewrite bind_arguments_present by (repeat constructor; exact Hu).
    unfold bind, ret. rewrite Hmsg. exists msg. reflexivity.
  - unfold read_timeline, bind. rewrite Hmsg. exists msg. reflexivity.
Qed.

Lemma handlers_need_credentials_witness :
  ~ credentials_set w_unconfigured /\
  (exists msg,
     like_tweet w_unconfigured kwargs_int_id st_session =
     (Raises (TwitterConfigurationError msg), st_session)) /\
  trace (snd (post_tweet w_unconfigured (kwargs_message "hello") st_session)) =
  [EvRequest POST "https://api.twitter.com/2/tweets"
     (Json (VDict [("text", VStr "hello")]))].
Proof.
  assert (Hnot : ~ credentials_set w_unconfigured).
  { intros H. inversion H as [|? ? Hhd _]. vm_compute in Hhd. discriminate. }
  split; [exact Hnot|]. split; [|vm_compute; reflexivity].
  apply (proj1 (handlers_need_credentials w_unconfigured kwargs_int_id
                  st_session Hnot)).
  eexists. reflexivity.
Defined.


(** *** [get_latest_tweets] *)

Lemma py_min_100_int n : py_min_100 (VInt n) = Returns (VInt (Z.min n 100)).
Proof.
  unfold py_min_100. destruct (Z.ltb_spec 100 n).
  - rewrite Z.min_r by lia. reflexivity.
  - rewrite Z.min_l by lia. reflexivity.
Qed.

Lemma bind_arguments_same fname required (kwargs kwargs' : gmap string PyVal) :
  (forall p, p ∈ required -> kwargs !! p = kwargs' !! p) ->
  bind_arguments fname required kwargs = bind_arguments fname required kwargs'.
Proof.
  intros Hsame. unfold bind_arguments.
  assert (Hf : filter (fun p => kwargs !! p = None) required =
               filter (fun p => kwargs' !! p = None) required).
  { induction required as [|p l IH]; [reflexivity|].
    rewrite !filter_cons. rewrite <- (Hsame p) by apply list_elem_of_here.
    rewrite IH by (intros q Hq; apply Hsame, list_elem_of_further, Hq).
    reflexivity. }
  rewrite Hf. reflexivity.
Qed.

(** X17.  With the credentials set, [get_latest_tweets] asks for the
    tweets of the configured user id with [max_results] the smaller of
    [count] (10 when not given) and 100; the [username] it is called with
    does not enter the request, nor the result. *)
Theorem latest_tweets_request w (kwargs : gmap string PyVal) username n s :
  credentials_set w ->
  kwargs !! "username" = Some username ->
  argument kwargs "count" (VInt 10) = VInt n ->
  trace (snd (get_latest_tweets w kwargs s)) =
    EvRequest GET
      ("https://api.twitter.com/2/users/" +:+ credential w "TWITTER_USER_ID" +:+
       "/tweets")
      (Params (latest_tweets_params (VInt (Z.min n 100)))) :: trace s /\
  forall other,
    get_latest_tweets w (<["username" := other]> kwargs) s =
    get_latest_tweets w kwargs s.
Proof.
  intros Hset Hu Hcount. split.
  - unfold get_latest_tweets.
    rewrite bind_arguments_present by (repeat constructor; eauto).
    rewrite Hcount. unfold bind at 1 2, ret.
    rewrite (proj2 (proj1 (credentials_required w s)) Hset).
    unfold bind at 1, lift at 1. rewrite py_min_100_int.
    destruct (_get_oauth_available w s Hset) as [session Hsession].
    pose proof (_make_request_sends w GET
                  ("users/" +:+ credential w "TWITTER_USER_ID" +:+ "/tweets")
                  (Params (latest_tweets_params (VInt (Z.min n 100))))
                  s session Hsession) as Hsent.
    unfold bind. fold (latest_tweets_params (VInt (Z.min n 100))).
    destruct (_make_request w GET _ _ s) as [[response|e] s1]; simpl in *;
      [|exact Hsent].
    unfold lift. destruct (py_get response "data" (VList [])) as [tweets|e];
      simpl; [|exact Hsent].
    destruct (py_len tweets); simpl; exact Hsent.
  - intros other. unfold get_latest_tweets, argument.
    rewrite !bind_arguments_present; [|repeat constructor; eauto|].
    + rewrite lookup_insert_ne by discriminate. reflexivity.
    + repeat constructor. rewrite lookup_insert_eq. eauto.
Qed.

Lemma latest_tweets_request_witness :
  credentials_set w_online /\
  trace (snd (get_latest_tweets w_online
                {[ "username" := VStr "alice"; "count" := VInt 500 ]} st0)) =
  [EvRequest GET "https://api.twitter.com/2/users/42/tweets"
     (Params (latest_tweets_params (VInt 100)))].
Proof.
  assert (Hset : credentials_set w_online)
    by (repeat constructor; vm_compute; reflexivity).
  split; [exact Hset|].
  refine (proj1 (latest_tweets_request w_online
                   {[ "username" := VStr "alice"; "count" := VInt 500 ]}
                   (VStr "alice") 500 st0 Hset _ _)); reflexivity.
Defined.

(** X18.  A call of [post_tweet] depends on its keyword arguments through
    [message] only, and a call of [reply_to_tweet] through [tweet_id] and
    [message] only: any other keyword argument is ignored. *)
Theorem other_keyword_arguments_ignored w (kwargs kwargs' : gmap string PyVal) s :
  kwargs !! "message" = kwargs' !! "message" ->
  post_tweet w kwargs s = post_tweet w kwargs' s /\
  (kwargs !! "tweet_id" = kwargs' !! "tweet_id" ->
   reply_to_tweet w kwargs s = reply_to_tweet w kwargs' s).
Proof.
  intros Hm. split.
  - unfold post_tweet, argument.
    rewrite (bind_arguments_same "post_tweet" ["message"] kwargs kwargs').
    + rewrite Hm. reflexivity.
    + intros p Hp. apply list_elem_of_singleton in Hp as ->. exact Hm.
  - intros Hid. unfold reply_to_tweet, argument.
    rewrite (bind_arguments_same "reply_to_tweet" ["tweet_id"; "message"]
               kwargs kwargs').
    + rewrite Hm, Hid. reflexivity.
    + intros p Hp. apply elem_of_cons in Hp as [->|Hp]; [exact Hid|].
      apply list_elem_of_singleton in Hp as ->. exact Hm.
Qed.

Lemma other_keyword_arguments_ignored_witness :
  post_tweet w_online (<["bad_arg" := VInt 1]> (kwargs_message "hello")) st0 =
  post_tweet w_online (kwargs_message "hello") st0.
Proof.
  refine (proj1 (other_keyword_arguments_ignored w_online
                   (<["bad_arg" := VInt 1]> (kwargs_message "hello"))
                   (kwargs_message "hello") st0 _)).
  reflexivity.
Defined.

(** *** The timeline *)

Lemma assoc_str_insert_eq key value entries :
  assoc key (str_insert key value entries) = Some value.
Proof.
  induction entries as [|[k v] rest IH]; simpl.
  - rewrite String.eqb_refl. reflexivity.
  - destruct (String.eqb k key) eqn:E; simpl; rewrite E; [reflexivity|exact IH].
Qed.

Lemma assoc_str_insert_ne key key' value entries :
  key' <> key ->
  assoc key' (str_insert key value entries) = assoc key' entries.
Proof.
  intros Hne. induction entries as [|[k v] rest IH]; simpl.
  - destruct (String.eqb_spec key key'); [congruence|reflexivity].
  - destruct (String.eqb_spec k key) as [->|Hk]; simpl.
    + destruct (String.eqb_spec key key'); [congruence|reflexivity].
    + destruct (String.eqb k key'); [reflexivity|exact IH].
Qed.

(** X19.  When the loop of [read_timeline] over the tweets completes, it
    has kept their number and order; every tweet then carries
    [author_name] and [author_username], taken from the user with the
    tweet's [author_id] or ["Unknown"] when there is none, and all its
    other fields are as before. *)
Theorem tweets_enriched user_dict tweets enriched :
  enrich_tweets user_dict tweets = Returns enriched ->
  Forall2
    (fun tweet tweet' =>
       has_author_fields tweet' /\
       (exists author_id,
          py_getitem tweet "author_id" = Returns author_id /\
          let author_info :=
            default (VStr "Unknown", VStr "Unknown")
              (key_lookup author_id user_dict) in
          py_getitem tweet' "author_name" = Returns (fst author_info) /\
          py_getitem tweet' "author_username" = Returns (snd author_info)) /\
       (forall key, key <> "author_name" -> key <> "author_username" ->
                    py_getitem tweet' key = py_getitem tweet key))
    tweets enriched.
Proof.
  revert enriched. induction tweets as [|tweet rest IH]; intros enriched; simpl.
  - intros [= <-]. constructor.
  - destruct (py_getitem tweet "author_id") as [author_id|e] eqn:Hid;
      [|discriminate].
    destruct (hashable author_id); [|discriminate].
    destruct (enrich_tweets user_dict rest) as [rest'|e]; [|discriminate].
    intros [= <-]. constructor; [|apply IH; reflexivity].
    destruct tweet as [| | | | |entries]; try discriminate.
    set (info := default (VStr "Unknown", VStr "Unknown")
                   (key_lookup author_id user_dict)).
    split; [|split].
    + simpl. split.
      * rewrite assoc_str_insert_ne by discriminate.
        rewrite assoc_str_insert_eq. eauto.
      * rewrite assoc_str_insert_eq. eauto.
    + exists author_id. split; [exact Hid|]. simpl. split.
      * rewrite assoc_str_insert_ne by discriminate.
        rewrite assoc_str_insert_eq. reflexivity.
      * rewrite assoc_str_insert_eq. reflexivity.
    + intros key Hn Hu. simpl.
      rewrite !assoc_str_insert_ne by assumption. reflexivity.
Qed.

Lemma tweets_enriched_witness :
  enrich_tweets [(VStr "u1", (VStr "Ann", VStr "ann"))]
    [VDict [("id", VStr "t1"); ("author_id", VStr "u1")];
     VDict [("id", VStr "t2"); ("author_id", VStr "u9")]] =
  Returns
    [VDict [("id", VStr "t1"); ("author_id", VStr "u1");
            ("author_name", VStr "Ann"); ("author_username", VStr "ann")];
     VDict [("id", VStr "t2"); ("author_id", VStr "u9");
            ("author_name", VStr "Unknown");
            ("author_username", VStr "Unknown")]] /\
  Forall has_author_fields
    [VDict [("id", VStr "t1"); ("author_id", VStr "u1");
            ("author_name", VStr "Ann"); ("author_username", VStr "ann")];
     VDict [("id", VStr "t2"); ("author_id", VStr "u9");
            ("author_name", VStr "Unknown");
            ("author_username", VStr "Unknown")]].
Proof.
  assert (H : enrich_tweets [(VStr "u1", (VStr "Ann", VStr "ann"))]
                [VDict [("id", VStr "t1"); ("author_id", VStr "u1")];
                 VDict [("id", VStr "t2"); ("author_id", VStr "u9")]] =
              Returns
                [VDict [("id", VStr "t1"); ("author_id", VStr "u1");
                        ("author_name", VStr "Ann");
                        ("author_username", VStr "ann")];
                 VDict [("id", VStr "t2"); ("author_id", VStr "u9");
                        ("author_name", VStr "Unknown");
                        ("author_username", VStr "Unknown")]])
    by reflexivity.
  split; [exact H|].
  pose proof (tweets_enriched _ _ _ H) as Hall.
  apply Forall2_cons_1 in Hall as [[H1 _] Hall].
  apply Forall2_cons_1 in Hall as [[H2 _] _].
  constructor; [exact H1|]. constructor; [exact H2|]. constructor.
Defined.

(** *** The user id *)

(** X20.  [_get_authenticated_user_id] returns the [id] under [data] of
    the answer to [GET users/me]; whatever fails, the request or the
    lookup of either key, it raises [TwitterConfigurationError] with the
    text [Could not retrieve user ID]. *)
Theorem user_id_or_configuration_error w s :
  (forall e,
     fst (_get_authenticated_user_id w s) = Raises e ->
     e = TwitterConfigurationError "Could not retrieve user ID") /\
  (forall user_id,
     fst (_get_authenticated_user_id w s) = Returns user_id ->
     exists response data,
       fst (_make_request w GET "users/me"
              (Params (VDict [("user.fields", VStr "id")])) s)
         = Returns response /\
       py_getitem response "data" = Returns data /\
       py_getitem data "id" = Returns user_id).
Proof.
  unfold _get_authenticated_user_id, try_except, bind, lift, ret, raise.
  destruct (_make_request w GET "users/me" _ s) as [[response|e0] s1]; simpl.
  - destruct (py_getitem response "data") as [data|e1] eqn:Hd; simpl.
    + destruct (py_getitem data "id") as [uid|e2] eqn:Hi; simpl.
      * split; [discriminate|]. intros user_id [= <-]. eauto.
      * split; [intros e [= <-]; reflexivity|discriminate].
    + split; [intros e [= <-]; reflexivity|discriminate].
  - split; [intros e [= <-]; reflexivity|discriminate].
Qed.

End TwitterExtraProofs.
